(** * Construction-management record keeper: server and dashboard model

    A shallow embedding of [src/App.tsx]: the Express server (schema,
    admin seeding, session gate, login / logout / me, and the four
    list-and-create resources) and the dashboard status counters of the
    web client.

    Conventions of the embedding.
    - A JSON request body is a flat object: a finite map from keys to JSON
      scalars.  A key that is absent reads as JavaScript [undefined].
    - JavaScript numbers are restricted to integer values and written as
      [Z]; fractional values are outside the model.  The ids the driver
      reads from the database ([lastInsertRowid], [user.id], the id of a
      listed row) are 64-bit integers rounded to the nearest double
      ([js_number]); a number in a request body is a double already.
    - A statement that throws (binder type error, constraint violation,
      rowid exhaustion, bcrypt argument check) is an [option] returning
      [None]; Express turns the uncaught exception into a 500 response.
    - [CURRENT_TIMESTAMP] has a resolution of one second; the clock reading
      is an integer number of seconds supplied with each request.
    - bcrypt and the text/number conversions of SQLite column affinity are
      interfaces ([Bcrypt], [SqliteConv]); no particular implementation is
      assumed.
    - [NODE_ENV] is read once, when the session middleware is configured;
      it is the process-wide parameter [production]. *)

From Stdlib Require Import ZArith Lia.
From stdpp Require Import gmap strings list fin_maps sorting pretty.

Local Open Scope Z_scope.

(** ** JSON scalars and SQLite values *)

Inductive jsvalue :=
  | JNull
  | JBool (b : bool)
  | JNum (n : Z)
  | JStr (s : string).

#[global] Instance jsvalue_eq_dec : EqDecision jsvalue.
Proof. solve_decision. Defined.

(** [a === b] on JSON scalars. *)
Definition strict_eq (a b : jsvalue) : bool :=
  match a, b with
  | JNull, JNull => true
  | JBool x, JBool y => bool_decide (x = y)
  | JNum x, JNum y => x =? y
  | JStr x, JStr y => String.eqb x y
  | _, _ => false
  end.

(** Storage classes.  [SqlReal n] is the double holding the integer [n]. *)
Inductive sqlval :=
  | SqlNull
  | SqlInteger (n : Z)
  | SqlReal (n : Z)
  | SqlText (s : string).

#[global] Instance sqlval_eq_dec : EqDecision sqlval.
Proof. solve_decision. Defined.

(** Declared column types of the schema. *)
Inductive coltype := TEXT | INTEGER.

(** The value a driver hands back to JavaScript for a stored value. *)
Definition js_of_sql (v : sqlval) : jsvalue :=
  match v with
  | SqlNull => JNull
  | SqlInteger n => JNum n
  | SqlReal n => JNum n
  | SqlText s => JStr s
  end.

(** The driver's parameter binder: numbers are bound as doubles, strings as
    text, [null] and [undefined] as NULL; a boolean is refused with a
    [TypeError]. *)
Definition bind_value (arg : option jsvalue) : option sqlval :=
  match arg with
  | None => Some SqlNull
  | Some JNull => Some SqlNull
  | Some (JNum n) => Some (SqlReal n)
  | Some (JStr s) => Some (SqlText s)
  | Some (JBool _) => None
  end.

Definition max_rowid : Z := 2 ^ 63 - 1.
Definition min_rowid : Z := - 2 ^ 63.

(** The JavaScript number a 64-bit integer becomes when the driver hands
    it over: the nearest double, ties to the even significand.  Integers of
    magnitude up to [2 ^ 53] are exact. *)
Definition js_number (z : Z) : Z :=
  let a := Z.abs z in
  if a <=? 2 ^ 53 then z
  else
    let e := Z.log2 a - 52 in
    let q := a / 2 ^ e in
    let r := a mod 2 ^ e in
    let half := 2 ^ (e - 1) in
    let q' :=
      if r <? half then q
      else if half <? r then q + 1
      else if Z.even q then q else q + 1 in
    Z.sgn z * (q' * 2 ^ e).

(** What a text that looks like a number is converted to by INTEGER
    affinity: an integer, or the double holding [n] when the number does
    not fit 64 bits. *)
Inductive numeric :=
  | NumInteger (n : Z)
  | NumReal (n : Z).

Definition sql_of_numeric (x : numeric) : sqlval :=
  match x with
  | NumInteger n => SqlInteger n
  | NumReal n => SqlReal n
  end.

(** Text/number conversions performed by column affinity. *)
Class SqliteConv := {
  (** rendering of a double as text (TEXT affinity applied to a REAL) *)
  real_to_text : Z -> string;
  (** rendering of an integer as text (TEXT affinity applied to an INTEGER) *)
  integer_to_text : Z -> string;
  (** INTEGER affinity applied to a TEXT: the number stored when the text
      looks like one, [None] when the text is kept *)
  text_to_numeric : string -> option numeric
}.

(** bcryptjs: [hashSync s rounds] draws a random salt, here an explicit
    argument; [compareSync s hash]. *)
Class Bcrypt := {
  hashSync : string -> nat -> string -> string;
  compareSync : string -> string -> bool
}.

(** A password verifies against its own hash. *)
Class BcryptCorrect `{Bcrypt} : Prop :=
  compareSync_hashSync :
    forall s rounds salt, compareSync s (hashSync s rounds salt) = true.

(** [process.env.NODE_ENV === 'production'], the value of the session
    cookie's [secure] attribute. *)
Class Deployment := {
  production : bool
}.

Section Server.
Context {conv : SqliteConv} {bc : Bcrypt} {dep : Deployment}.

(** Column affinity applied when a value is stored. *)
Definition apply_affinity (ty : coltype) (v : sqlval) : sqlval :=
  match ty, v with
  | _, SqlNull => SqlNull
  | TEXT, SqlText s => SqlText s
  | TEXT, SqlReal n => SqlText (real_to_text n)
  | TEXT, SqlInteger n => SqlText (integer_to_text n)
  | INTEGER, SqlInteger n => SqlInteger n
  | INTEGER, SqlReal n =>
      if (min_rowid <=? n) && (n <=? max_rowid) then SqlInteger n else SqlReal n
  | INTEGER, SqlText s =>
      match text_to_numeric s with
      | Some x => sql_of_numeric x
      | None => SqlText s
      end
  end.

(** ** Schema *)

Inductive resource := inspections | trip_reports | estimates | minutes.

#[global] Instance resource_eq_dec : EqDecision resource.
Proof. solve_decision. Defined.

(** Domain columns of each business table, in the order of the
    [CREATE TABLE] and of the [INSERT] column list (after [user_id]). *)
Definition columns (R : resource) : list (string * coltype) :=
  match R with
  | inspections =>
      [("project_name", TEXT); ("date", TEXT); ("location", TEXT);
       ("findings", TEXT); ("status", TEXT)]
  | trip_reports =>
      [("destination", TEXT); ("date_start", TEXT); ("date_end", TEXT);
       ("purpose", TEXT); ("results", TEXT); ("expenses", INTEGER)]
  | estimates =>
      [("client_name", TEXT); ("project_name", TEXT); ("amount", INTEGER);
       ("details", TEXT); ("status", TEXT)]
  | minutes =>
      [("title", TEXT); ("date", TEXT); ("attendees", TEXT);
       ("content", TEXT); ("action_items", TEXT)]
  end.

(** A row of a business table: [id], [user_id], the domain columns and
    [created_at] (seconds). *)
Record row := mkRow {
  row_id : Z;
  row_user_id : sqlval;
  row_cols : gmap string sqlval;
  row_created_at : Z
}.

(** A table with [INTEGER PRIMARY KEY AUTOINCREMENT]: the rows in rowid
    order and the table's entry in [sqlite_sequence]. *)
Record table := mkTable {
  rows : list row;
  tbl_seq : Z
}.

Record user := mkUser {
  u_id : Z;
  username : string;
  password : string;
  role : string
}.

Record users_table := mkUsers {
  user_rows : list user;
  user_seq : Z
}.

Record database := mkDb {
  users : users_table;
  inspections_tbl : table;
  trip_reports_tbl : table;
  estimates_tbl : table;
  minutes_tbl : table
}.

Definition get_table (d : database) (R : resource) : table :=
  match R with
  | inspections => inspections_tbl d
  | trip_reports => trip_reports_tbl d
  | estimates => estimates_tbl d
  | minutes => minutes_tbl d
  end.

Definition set_table (d : database) (R : resource) (t : table) : database :=
  match R with
  | inspections => mkDb (users d) t (trip_reports_tbl d) (estimates_tbl d) (minutes_tbl d)
  | trip_reports => mkDb (users d) (inspections_tbl d) t (estimates_tbl d) (minutes_tbl d)
  | estimates => mkDb (users d) (inspections_tbl d) (trip_reports_tbl d) t (minutes_tbl d)
  | minutes => mkDb (users d) (inspections_tbl d) (trip_reports_tbl d) (estimates_tbl d) t
  end.

Definition empty_table : table := mkTable [] 0.

(** The database right after the schema is created on an empty file. *)
Definition fresh_db : database :=
  mkDb (mkUsers [] 0) empty_table empty_table empty_table empty_table.

(** ** AUTOINCREMENT *)

(** Largest rowid present, or 0. *)
Definition largest_rowid (ids : list Z) : Z := foldr Z.max 0 ids.

(** The next rowid is one more than the largest of the sequence entry and
    the rowids present; the insert fails once the largest rowid is used. *)
Definition next_rowid (sq : Z) (ids : list Z) : option Z :=
  let m := Z.max sq (largest_rowid ids) in
  if max_rowid <=? m then None else Some (m + 1).

(** ** INSERT into a business table *)

(** Bind the destructured body fields to the domain columns, in order. *)
Fixpoint bind_columns (cols : list (string * coltype))
    (body : gmap string jsvalue) : option (gmap string sqlval) :=
  match cols with
  | [] => Some ∅
  | (c, ty) :: cols' =>
      match bind_value (body !! c), bind_columns cols' body with
      | Some v, Some m => Some (<[c := apply_affinity ty v]> m)
      | _, _ => None
      end
  end.

(** [INSERT INTO R (user_id, ...) VALUES (?, ...)] run with the session's
    user id and the body fields; [created_at] defaults to the clock.
    Returns [lastInsertRowid] and the new table. *)
Definition insert_row (R : resource) (t : table) (now : Z)
    (userId : option jsvalue) (body : gmap string jsvalue) : option (Z * table) :=
  match bind_value userId, bind_columns (columns R) body,
        next_rowid (tbl_seq t) (row_id <$> rows t) with
  | Some u, Some cols, Some i =>
      Some (i, mkTable (rows t ++ [mkRow i (apply_affinity INTEGER u) cols now]) i)
  | _, _, _ => None
  end.

(** ** The users table *)

(** [SELECT * FROM users WHERE username = ?] with [.get(arg)]: the first
    matching row.  The comparison gives the bound value TEXT affinity; a
    NULL parameter matches nothing. *)
Definition select_user (d : database) (arg : option jsvalue) : option (option user) :=
  match bind_value arg with
  | None => None
  | Some v =>
      match apply_affinity TEXT v with
      | SqlText s =>
          Some (find (fun u => String.eqb (username u) s) (user_rows (users d)))
      | _ => Some None
      end
  end.

(** [INSERT INTO users (username, password, role) VALUES (?, ?, ?)];
    [username] is UNIQUE. *)
Definition insert_user (d : database) (name pw rl : string) : option database :=
  let t := users d in
  if existsb (fun u => String.eqb (username u) name) (user_rows t) then None
  else
    match next_rowid (user_seq t) (u_id <$> user_rows t) with
    | None => None
    | Some i =>
        Some (mkDb (mkUsers (user_rows t ++ [mkUser i name pw rl]) i)
                (inspections_tbl d) (trip_reports_tbl d)
                (estimates_tbl d) (minutes_tbl d))
    end.

(** Seed default user if not exists. *)
Definition seed (salt : string) (d : database) : option database :=
  match select_user d (Some (JStr "admin")) with
  | None => None
  | Some (Some _) => Some d
  | Some None =>
      let hashedPassword := hashSync "admin123" 10 salt in
      insert_user d "admin" hashedPassword "admin"
  end.

(** ** Sessions *)

(** [SessionData]: both fields are optional on the session object. *)
Record session := mkSession {
  sess_userId : option Z;
  sess_username : option string
}.

Definition empty_session : session := mkSession None None.

(** Truthiness of [req.session.userId]. *)
Definition truthy (n : option Z) : bool :=
  match n with
  | Some z => negb (z =? 0)
  | None => false
  end.

(** The process: the database handle and the in-memory session store. *)
Record server := mkServer {
  db : database;
  sessions : gmap string session
}.

(** Module initialisation: schema, seed, empty session store.  [None] when
    the seed statement throws. *)
Definition boot (salt : string) (d : database) : option server :=
  match seed salt d with
  | Some d' => Some (mkServer d' ∅)
  | None => None
  end.

(** ** Requests and responses *)

Inductive route :=
  | POST_login
  | POST_logout
  | GET_me
  | GET_list (R : resource)
  | POST_create (R : resource).

Record request := mkReq {
  req_route : route;
  req_cookie : option string;
  req_body : gmap string jsvalue
}.

(** What the environment contributes to one request: the clock reading and
    the identifier drawn for a session that has to be generated. *)
Record env := mkEnv {
  env_now : Z;
  env_sid : string
}.

Inductive payload :=
  | Json (o : gmap string jsvalue)
  | JsonRows (rs : list row)
  | Uncaught.

Record response := mkRes {
  res_status : Z;
  res_body : payload;
  res_set_cookie : option string
}.

(** What a handler did to [req.session]. *)
Inductive session_effect :=
  | SessKeep
  | SessSet (s : session)
  | SessDestroy.

(** An object literal passed to [res.json]: keys whose value is
    [undefined] are dropped by serialisation. *)
Definition json_object (fields : list (string * option jsvalue)) : gmap string jsvalue :=
  foldr (fun kv m => match kv.2 with
                     | Some v => <[kv.1 := v]> m
                     | None => m
                     end) ∅ fields.

(** ** Handlers *)

Definition authenticate (s : session) : bool := truthy (sess_userId s).

(** [bcrypt.compareSync(password, user.password)]: throws unless the first
    argument is a string. *)
Definition compareSync_js (pw : option jsvalue) (hash : string) : option bool :=
  match pw with
  | Some (JStr s) => Some (compareSync s hash)
  | _ => None
  end.

Definition invalid_credentials : Z * payload * session_effect :=
  (401, Json (json_object [("error", Some (JStr "Invalid credentials"))]), SessKeep).

Definition login (d : database) (s : session) (body : gmap string jsvalue)
    : option (Z * payload * session_effect) :=
  let username_ := body !! "username" in
  let password_ := body !! "password" in
  match select_user d username_ with
  | None => None
  | Some None => Some invalid_credentials
  | Some (Some u) =>
      match compareSync_js password_ (password u) with
      | None => None
      | Some true =>
          Some (200,
                Json (json_object [("id", Some (JNum (js_number (u_id u))));
                                   ("username", Some (JStr (username u)));
                                   ("role", Some (JStr (role u)))]),
                SessSet (mkSession (Some (js_number (u_id u))) (Some (username u))))
      | Some false => Some invalid_credentials
      end
  end.

Definition logout : Z * payload * session_effect :=
  (200, Json (json_object [("success", Some (JBool true))]), SessDestroy).

Definition me (s : session) : Z * payload * session_effect :=
  if truthy (sess_userId s) then
    (200, Json (json_object [("id", JNum <$> sess_userId s);
                             ("username", JStr <$> sess_username s)]), SessKeep)
  else
    (401, Json (json_object [("error", Some (JStr "Not logged in"))]), SessKeep).

Definition unauthorized : Z * payload * session_effect :=
  (401, Json (json_object [("error", Some (JStr "Unauthorized"))]), SessKeep).

(** [ORDER BY created_at DESC] as the engine evaluates it: a stable sort
    of the table scan, so rows of equal [created_at] stay in rowid order. *)
Fixpoint insert_desc (r : row) (l : list row) : list row :=
  match l with
  | [] => [r]
  | x :: xs =>
      if row_created_at r <? row_created_at x then x :: insert_desc r xs
      else r :: l
  end.

Definition order_by_created_at_desc (l : list row) : list row :=
  foldr insert_desc [] l.

Definition list_rows (d : database) (R : resource) : list row :=
  order_by_created_at_desc (rows (get_table d R)).

Definition get_list (d : database) (s : session) (R : resource)
    : Z * payload * session_effect :=
  if authenticate s then (200, JsonRows (list_rows d R), SessKeep)
  else unauthorized.

Definition post_create (d : database) (s : session) (now : Z) (R : resource)
    (body : gmap string jsvalue)
    : option (Z * payload * session_effect * database) :=
  if authenticate s then
    match insert_row R (get_table d R) now (JNum <$> sess_userId s) body with
    | Some (i, t) =>
        Some (200, Json (json_object [("id", Some (JNum (js_number i)))]),
              SessKeep, set_table d R t)
    | None => None
    end
  else Some (unauthorized, d).

(** ** The request cycle *)

(** The session middleware on the way in: the stored session of the cookie,
    or a freshly generated empty one. *)
Definition load_session (st : server) (e : env) (r : request)
    : string * session * bool :=
  match req_cookie r with
  | Some c =>
      match sessions st !! c with
      | Some s => (c, s, false)
      | None => (env_sid e, empty_session, true)
      end
  | None => (env_sid e, empty_session, true)
  end.

Definition dispatch (d : database) (s : session) (e : env) (r : request)
    : option (Z * payload * session_effect * database) :=
  match req_route r with
  | POST_login =>
      match login d s (req_body r) with
      | Some out => Some (out, d)
      | None => None
      end
  | POST_logout => Some (logout, d)
  | GET_me => Some (me s, d)
  | GET_list R => Some (get_list d s R, d)
  | POST_create R => post_create d s (env_now e) R (req_body r)
  end.

(** One request: load the session, run the handler, and on the way out
    save a modified session or drop a destroyed one.  A new session that is
    saved has its cookie set, unless the cookie is [secure]: the server
    listens on plain HTTP and trusts no proxy, so no request counts as
    secure and the middleware then withholds the cookie.  An uncaught
    exception answers 500 and changes nothing. *)
Definition handle (st : server) (e : env) (r : request) : response * server :=
  let '(sid, s, is_new) := load_session st e r in
  match dispatch (db st) s e r with
  | None => (mkRes 500 Uncaught None, st)
  | Some (status, body, eff, d') =>
      match eff with
      | SessKeep => (mkRes status body None, mkServer d' (sessions st))
      | SessSet s' =>
          (mkRes status body
             (if is_new && negb production then Some sid else None),
           mkServer d' (<[sid := s']> (sessions st)))
      | SessDestroy =>
          (mkRes status body None, mkServer d' (delete sid (sessions st)))
      end
  end.

(** A run of the server over a sequence of requests. *)
Fixpoint run (st : server) (tr : list (env * request)) : server :=
  match tr with
  | [] => st
  | (e, r) :: tr' => run (handle st e r).2 tr'
  end.

(** The session a request is served with. *)
Definition session_of (st : server) (e : env) (r : request) : session :=
  (load_session st e r).1.2.

(** Successive boots of the process on the same database file; the
    session store does not survive a restart, the database does. *)
Fixpoint boots (salts : list string) (d : database) : option database :=
  match salts with
  | [] => Some d
  | salt :: salts' =>
      match boot salt d with
      | Some st => boots salts' (db st)
      | None => None
      end
  end.

(** Number of users called [name]. *)
Definition count_users (name : string) (d : database) : nat :=
  length (List.filter (fun u => String.eqb (username u) name) (user_rows (users d))).

(** The UNIQUE constraint on [users.username]. *)
Definition usernames_unique (d : database) : Prop :=
  NoDup (username <$> user_rows (users d)).

(** ** Vocabulary of the properties *)

(** A field value of the declared column type: a string for a TEXT column,
    a number for an INTEGER column. *)
Definition valid_field (ty : coltype) (v : option jsvalue) : bool :=
  match ty, v with
  | TEXT, Some (JStr _) => true
  | INTEGER, Some (JNum _) => true
  | _, _ => false
  end.

(** A complete valid field set for [R]. *)
Definition valid_fields (R : resource) (body : gmap string jsvalue) : bool :=
  forallb (fun c => valid_field c.2 (body !! c.1)) (columns R).

(** The outcome of a successful login as user [u]. *)
Definition login_success (u : user) : Z * payload * session_effect :=
  (200,
   Json {[ "id" := JNum (js_number (u_id u)); "username" := JStr (username u);
           "role" := JStr (role u) ]},
   SessSet (mkSession (Some (js_number (u_id u))) (Some (username u)))).

(** The largest rowid a table has ever handed out. *)
Definition high_water (t : table) : Z :=
  Z.max (tbl_seq t) (largest_rowid (row_id <$> rows t)).

(** A field value the binder accepts. *)
Definition bindable (v : option jsvalue) : bool :=
  match bind_value v with Some _ => true | None => false end.

(** What [SELECT * FROM R ORDER BY created_at DESC] is allowed to return:
    the rows of the table, arranged so that [created_at] never increases.
    The order among rows of equal [created_at] is left open. *)
Definition is_listing (t : table) (l : list row) : Prop :=
  l ≡ₚ rows t /\
  StronglySorted (fun a b => row_created_at b <= row_created_at a) l.

(** [a] occurs in [l] strictly before an occurrence of [b]. *)
Definition precedes (l : list row) (a b : row) : Prop :=
  exists l1 l2 l3, l = l1 ++ a :: l2 ++ b :: l3.


End Server.

(** ** The dashboard of the web client *)

(** An inspection as the client holds it: the parsed JSON object of one
    row. *)
Abbreviation Inspection := (gmap string jsvalue) (only parsing).

(** [i.status === s] *)
Definition status_is (s : string) (i : Inspection) : bool :=
  match i !! "status" with
  | Some v => strict_eq v (JStr s)
  | None => false
  end.

(** The [value] entries of [stats] in [DashboardView], in source order. *)
Record stats := mkStats {
  pending : nat;
  completed : nat;
  urgent : nat
}.

Definition DashboardView (inspections : list Inspection) : stats :=
  {| pending := length (List.filter (status_is "pending") inspections);
     completed := length (List.filter (status_is "completed") inspections);
     urgent := length (List.filter (status_is "urgent") inspections) |}.

(** The number of inspections of a list whose status field equals [s]. *)
Fixpoint count_status (s : string) (l : list Inspection) : nat :=
  match l with
  | [] => 0%nat
  | i :: l' =>
      if decide (i !! "status" = Some (JStr s)) then S (count_status s l')
      else count_status s l'
  end.

(** The views of the client and the data states of [App]. *)
Inductive View := dashboard | view (R : resource).

Record data_states := mkData {
  inspections_state : list (gmap string jsvalue);
  tripReports_state : list (gmap string jsvalue);
  estimates_state : list (gmap string jsvalue);
  minutes_state : list (gmap string jsvalue)
}.

(** [endpoints[view]]: the dashboard reads the inspections endpoint. *)
Definition endpoint (v : View) : resource :=
  match v with
  | dashboard => inspections
  | view R => R
  end.

(** What [fetchData] does with the array of a successful response: one
    setter per resource view, none for the dashboard. *)
Definition fetchData (v : View) (data : list (gmap string jsvalue))
    (s : data_states) : data_states :=
  match v with
  | view inspections =>
      mkData data (tripReports_state s) (estimates_state s) (minutes_state s)
  | view trip_reports =>
      mkData (inspections_state s) data (estimates_state s) (minutes_state s)
  | view estimates =>
      mkData (inspections_state s) (tripReports_state s) data (minutes_state s)
  | view minutes =>
      mkData (inspections_state s) (tripReports_state s) (estimates_state s) data
  | dashboard => s
  end.

(** ** A concrete environment

    One stand-in for each interface, used to run the model on concrete
    requests.  The conversions are those of SQLite on numbers of fewer than
    sixteen digits and on text that is a plain decimal integer, with an
    optional minus sign; the runs below bind nothing else. *)

Fixpoint digits_value (acc : Z) (s : string) : option Z :=
  match s with
  | EmptyString => Some acc
  | String a s' =>
      let n := Z.of_nat (Ascii.nat_of_ascii a) - 48 in
      if (0 <=? n) && (n <=? 9) then digits_value (10 * acc + n) s' else None
  end.

Definition decimal_literal (s : string) : option Z :=
  match s with
  | EmptyString => None
  | String a s' =>
      if Nat.eqb (Ascii.nat_of_ascii a) 45 then
        match s' with
        | EmptyString => None
        | _ => Z.opp <$> digits_value 0 s'
        end
      else digits_value 0 s
  end.

Definition decimal_numeric (s : string) : option numeric :=
  match decimal_literal s with
  | Some n =>
      if (min_rowid <=? n) && (n <=? max_rowid) then Some (NumInteger n)
      else Some (NumReal (js_number n))
  | None => None
  end.

Definition decimal_conv : SqliteConv :=
  {| real_to_text n := pretty n +:+ ".0";
     integer_to_text n := pretty n;
     text_to_numeric := decimal_numeric |}.

(** A process started without [NODE_ENV=production], and one started
    with it. *)
Definition development : Deployment := {| production := false |}.
Definition production_mode : Deployment := {| production := true |}.

(** A stand-in for bcrypt: the "hash" is the tagged password; the salt is
    ignored. *)
Definition tagged_bcrypt : Bcrypt :=
  {| hashSync s rounds salt := "$2a$" +:+ s;
     compareSync s h := String.eqb ("$2a$" +:+ s) h |}.

(** A concrete session of one client against a freshly created database:
    boot, login as the seeded account, then two inspections created within
    the same second. *)
Section ConcreteSession.
#[local] Existing Instance decimal_conv.
#[local] Existing Instance tagged_bcrypt.
#[local] Existing Instance development.

Definition booted : server :=
  mkServer
    (mkDb (mkUsers [mkUser 1 "admin" "$2a$admin123" "admin"] 1)
       empty_table empty_table empty_table empty_table) ∅.

Definition admin_credentials : gmap string jsvalue :=
  {[ "username" := JStr "admin"; "password" := JStr "admin123" ]}.

Definition login_request : request := mkReq POST_login None admin_credentials.

Definition logged_in : server := (handle booted (mkEnv 90 "sid-1") login_request).2.

Definition inspection_fields : gmap string jsvalue :=
  {[ "project_name" := JStr "Harbour bridge"; "date" := JStr "2026-03-01";
     "location" := JStr "Pier 4"; "findings" := JStr "Hairline crack";
     "status" := JStr "pending" ]}.

Definition create_inspection : request :=
  mkReq (POST_create inspections) (Some "sid-1") inspection_fields.

Definition list_inspections : request :=
  mkReq (GET_list inspections) (Some "sid-1") ∅.

Definition one_inspection : server :=
  (handle logged_in (mkEnv 100 "sid-2") create_inspection).2.

Definition two_inspections : server :=
  (handle one_inspection (mkEnv 100 "sid-3") create_inspection).2.

Definition logged_out : server :=
  (handle logged_in (mkEnv 110 "sid-4") (mkReq POST_logout (Some "sid-1") ∅)).2.

End ConcreteSession.

(** ** Further vocabulary of the server *)

Section ServerVocabulary.
Context {conv : SqliteConv} {bc : Bcrypt} {dep : Deployment}.

(** The session identifier a request is served under. *)
Definition request_sid (st : server) (e : env) (r : request) : string :=
  (load_session st e r).1.1.

(** The cookie a browser that accepts the session cookie holds after an
    answer: a [Set-Cookie] replaces the one it sent. *)
Definition cookie_after (cookie : option string) (res : response) : option string :=
  match res_set_cookie res with
  | Some c => Some c
  | None => cookie
  end.

(** Every session in the store is the one login writes for some user of
    the users table. *)
Definition sessions_of_users (st : server) : Prop :=
  forall sid s, sessions st !! sid = Some s ->
    exists u, u ∈ user_rows (users (db st))
              /\ s = mkSession (Some (js_number (u_id u))) (Some (username u)).

(** The rows of a table whose [status] column holds the text [s]. *)
Definition rows_with_status (s : string) (l : list row) : list row :=
  List.filter (fun rw => bool_decide (row_cols rw !! "status" = Some (SqlText s))) l.

End ServerVocabulary.

(** The text [CURRENT_TIMESTAMP] stores for a clock reading. *)
Class TimestampText := {
  timestamp_text : Z -> string
}.

(** The JSON object [res.json(rows)] carries for one row of [SELECT *]. *)
Definition row_json `{TimestampText} (rw : row) : gmap string jsvalue :=
  <["id" := JNum (js_number (row_id rw))]>
    (<["user_id" := js_of_sql (row_user_id rw)]>
       (<["created_at" := JStr (timestamp_text (row_created_at rw))]>
          (js_of_sql <$> row_cols rw))).

(** ** The web client *)

(** *** The create form *)



(** *** The state of [App] *)

Record app_state := mkApp {
  app_user : option (gmap string jsvalue);
  app_view : View;
  app_sidebar : bool;
  app_loading : bool;
  app_data : data_states;
  app_modal : bool
}.

(** The [useState] initial values. *)
Definition initial_app : app_state :=
  mkApp None dashboard true true (mkData [] [] [] []) false.

(** What can happen to the component: the completions of its requests and
    the clicks that set state. *)
Inductive event :=
  | AuthChecked (me_answer : option (gmap string jsvalue))
  | LoginAnswered (answer : option (gmap string jsvalue))
  | LogoutAnswered
  | Navigated (v : View)
  | Fetched (v : View) (data : list (gmap string jsvalue))
  | SidebarToggled
  | ModalOpened
  | ModalClosed
  | FormSaved.

(** The state after an event.
    - [AuthChecked]: [checkAuth] sets the user when the answer is ok and
      clears [loading] in any case.
    - [LoginAnswered]: [handleLogin] sets the user when the answer is ok.
    - [LogoutAnswered]: [handleLogout] clears the user and goes back to the
      dashboard.
    - [Fetched v data]: the [fetchData] that was started under view [v]
      received an ok answer.
    - [FormSaved]: the form's POST was ok; the modal closes. *)
Definition app_step (a : app_state) (ev : event) : app_state :=
  match ev with
  | AuthChecked (Some data) =>
      mkApp (Some data) (app_view a) (app_sidebar a) false (app_data a) (app_modal a)
  | AuthChecked None =>
      mkApp (app_user a) (app_view a) (app_sidebar a) false (app_data a) (app_modal a)
  | LoginAnswered (Some data) =>
      mkApp (Some data) (app_view a) (app_sidebar a) (app_loading a) (app_data a)
        (app_modal a)
  | LoginAnswered None => a
  | LogoutAnswered =>
      mkApp None dashboard (app_sidebar a) (app_loading a) (app_data a) (app_modal a)
  | Navigated v =>
      mkApp (app_user a) v (app_sidebar a) (app_loading a) (app_data a) (app_modal a)
  | Fetched v data =>
      mkApp (app_user a) (app_view a) (app_sidebar a) (app_loading a)
        (fetchData v data (app_data a)) (app_modal a)
  | SidebarToggled =>
      mkApp (app_user a) (app_view a) (negb (app_sidebar a)) (app_loading a)
        (app_data a) (app_modal a)
  | ModalOpened =>
      mkApp (app_user a) (app_view a) (app_sidebar a) (app_loading a) (app_data a) true
  | ModalClosed | FormSaved =>
      mkApp (app_user a) (app_view a) (app_sidebar a) (app_loading a) (app_data a) false
  end.

Definition app_run (a : app_state) (evs : list event) : app_state :=
  foldl app_step a evs.

(** What [App] returns: the spinner while loading, the login view without
    a user, else the shell showing the active view. *)
Inductive screen := Spinner | LoginScreen | Shell (v : View).

Definition App (a : app_state) : screen :=
  if app_loading a then Spinner
  else match app_user a with
       | None => LoginScreen
       | Some _ => Shell (app_view a)
       end.

(** *** The list views *)

(** The badge [InspectionsList] puts on an item. *)
Definition inspection_badge (i : gmap string jsvalue) : string :=
  if status_is "urgent" i then "至急"
  else if status_is "completed" i then "完了"
  else "対応中".

(** The badge [EstimatesList] puts on an item. *)
Definition estimate_badge (i : gmap string jsvalue) : string :=
  if status_is "approved" i then "承認"
  else if status_is "rejected" i then "却下"
  else if status_is "sent" i then "送付済"
  else "下書き".

(** [s.split(sep)] for a one-character separator. *)
Fixpoint split (sep : Ascii.ascii) (s : string) : list string :=
  match s with
  | EmptyString => [EmptyString]
  | String c s' =>
      if Ascii.eqb c sep then EmptyString :: split sep s'
      else match split sep s' with
           | h :: t => String c h :: t
           | [] => [String c EmptyString]
           end
  end.

Definition comma : Ascii.ascii := Ascii.ascii_of_nat 44.

(** [l.join(sep)] and the number of occurrences of a character, to state
    what [split] returns. *)
Fixpoint join (sep : Ascii.ascii) (l : list string) : string :=
  match l with
  | [] => EmptyString
  | [s] => s
  | s :: l' => s +:+ String sep (join sep l')
  end.

Fixpoint count_char (c : Ascii.ascii) (s : string) : nat :=
  match s with
  | EmptyString => 0%nat
  | String a s' => if Ascii.eqb a c then S (count_char c s') else count_char c s'
  end.

Fixpoint contains_char (c : Ascii.ascii) (s : string) : bool :=
  match s with
  | EmptyString => false
  | String a s' => Ascii.eqb a c || contains_char c s'
  end.

(** [MinutesList]: the circles drawn for the attendees of one item,
    [split(',').slice(0, 3)], and the number on the extra circle, shown
    when there are more than three. *)
Definition attendee_circles (attendees : string) : list string :=
  take 3 (split comma attendees).

Definition attendee_overflow (attendees : string) : option nat :=
  let n := length (split comma attendees) in
  if (3 <? n)%nat then Some (n - 3)%nat else None.




(** ** Further concrete states *)

Section ConcreteStates.
#[local] Existing Instance decimal_conv.
#[local] Existing Instance tagged_bcrypt.
#[local] Existing Instance development.

(** A second inspection created one second after the first. *)
Definition two_inspections_apart : server :=
  (handle one_inspection (mkEnv 101 "sid-3") create_inspection).2.

(** A second client logged in under its own cookie. *)
Definition two_clients : server :=
  (handle logged_in (mkEnv 91 "sid-7") login_request).2.



(** The admin logged in on a database file whose [sqlite_sequence] entry
    for [inspections] has reached [2 ^ 53 - 1], and the two creates that
    follow. *)
Definition near_2_53 : server :=
  mkServer (set_table (db logged_in) inspections (mkTable [] (2 ^ 53 - 1)))
    (sessions logged_in).

Definition at_2_53 : server :=
  (handle near_2_53 (mkEnv 100 "sid-2") create_inspection).2.

Definition past_2_53 : server :=
  (handle at_2_53 (mkEnv 101 "sid-3") create_inspection).2.

End ConcreteStates.

(** Timestamps printed as plain seconds, for concrete runs. *)
Definition seconds_text : TimestampText :=
  {| timestamp_text n := pretty n |}.

(** * Properties *)

Section ServerProperties.
Context {conv : SqliteConv} {bc : Bcrypt} {dep : Deployment}.

(** ** Basic facts about the request cycle *)

Lemma server_eta (st : server) : mkServer (db st) (sessions st) = st.
Proof. by destruct st. Qed.

Lemma set_get_table d R t : get_table (set_table d R t) R = t.
Proof. by destruct R. Qed.

Lemma get_set_table_ne d R R' t :
  R <> R' -> get_table (set_table d R t) R' = get_table d R'.
Proof. by destruct R, R'. Qed.

Lemma users_set_table d R t : users (set_table d R t) = users d.
Proof. by destruct R. Qed.

Lemma load_session_unknown st e rt c body :
  sessions st !! c = None ->
  load_session st e (mkReq rt (Some c) body) = (env_sid e, empty_session, true).
Proof. unfold load_session; simpl. by intros ->. Qed.

(** The gate: a handler behind [authenticate] is not entered without a
    truthy [userId]. *)
Lemma post_create_unauthenticated d s now R body :
  authenticate s = false -> post_create d s now R body = Some (unauthorized, d).
Proof. unfold post_create. by intros ->. Qed.

Lemma get_list_unauthenticated d s R :
  authenticate s = false -> get_list d s R = unauthorized.
Proof. unfold get_list. by intros ->. Qed.

Lemma handle_logout st e cookie body :
  handle st e (mkReq POST_logout cookie body)
  = (mkRes 200 (Json {[ "success" := JBool true ]}) None,
     mkServer (db st)
       (delete (load_session st e (mkReq POST_logout cookie body)).1.1 (sessions st))).
Proof.
  unfold handle.
  by destruct (load_session st e (mkReq POST_logout cookie body)) as [[sid s] n].
Qed.

Lemma handle_me_no_session st e cookie body :
  truthy (sess_userId (session_of st e (mkReq GET_me cookie body))) = false ->
  handle st e (mkReq GET_me cookie body)
  = (mkRes 401 (Json {[ "error" := JStr "Not logged in" ]}) None, st).
Proof.
  unfold session_of, handle.
  destruct (load_session st e (mkReq GET_me cookie body)) as [[sid s] n].
  simpl. intros Hs. unfold dispatch, me; simpl. rewrite Hs. simpl.
  by rewrite server_eta.
Qed.

(** Once the session of a cookie is destroyed, the store has no entry for
    the cookie, which therefore loads a fresh empty session. *)
Lemma cookie_unknown_after_logout st e c body :
  sessions (handle st e (mkReq POST_logout (Some c) body)).2 !! c = None.
Proof.
  rewrite handle_logout. unfold load_session; simpl.
  destruct (sessions st !! c) as [s|] eqn:Hc; simpl.
  - by rewrite lookup_delete_eq.
  - destruct (decide (env_sid e = c)) as [->|Hne].
    + by rewrite lookup_delete_eq.
    + by rewrite lookup_delete_ne.
Qed.

Lemma load_session_after_logout st e cookie body e' rt body' :
  load_session (handle st e (mkReq POST_logout cookie body)).2 e' (mkReq rt cookie body')
  = (env_sid e', empty_session, true).
Proof.
  destruct cookie as [c|]; [|done].
  apply load_session_unknown, cookie_unknown_after_logout.
Qed.

(** *** The binder and the INSERT statement *)

Lemma columns_NoDup R : NoDup (columns R).*1.
Proof. destruct R; by apply (bool_decide_unpack _). Qed.

Lemma bind_columns_ext cols (b1 b2 : gmap string jsvalue) :
  (forall c ty, (c, ty) ∈ cols -> b1 !! c = b2 !! c) ->
  bind_columns cols b1 = bind_columns cols b2.
Proof.
  induction cols as [|[c ty] cols IH]; intros Hagree; [done|].
  simpl. rewrite (Hagree c ty) by (apply elem_of_cons; by left).
  rewrite IH; [done|]. intros c' ty' Hin. apply (Hagree c' ty').
  apply elem_of_cons. by right.
Qed.

Lemma bind_columns_is_Some cols (b : gmap string jsvalue) :
  is_Some (bind_columns cols b)
  <-> forall c ty, (c, ty) ∈ cols -> bindable (b !! c) = true.
Proof.
  induction cols as [|[c ty] cols IH]; simpl.
  - split; [intros _ c ty Hin; by apply elem_of_nil in Hin | eauto].
  - unfold bindable in *. split.
    + intros Hs c' ty' Hin.
      destruct (bind_value (b !! c)) as [v|] eqn:Hv; [|by destruct Hs].
      destruct (bind_columns cols b) as [m|] eqn:Hm; [|by destruct Hs].
      apply elem_of_cons in Hin as [[= -> ->]|Hin]; [by rewrite Hv|].
      by apply (proj1 IH (mk_is_Some _ _ eq_refl) c' ty').
    + intros Hall.
      pose proof (Hall c ty (proj2 (elem_of_cons _ _ _) (or_introl eq_refl))) as Hc.
      destruct (bind_value (b !! c)) as [v|]; [|done].
      destruct (proj2 IH) as [m ->]; [|eauto].
      intros c' ty' Hin. apply (Hall c' ty'). apply elem_of_cons. by right.
Qed.

Lemma bind_columns_lookup cols (b : gmap string jsvalue) m c ty :
  NoDup cols.*1 ->
  bind_columns cols b = Some m ->
  (c, ty) ∈ cols ->
  exists v, bind_value (b !! c) = Some v /\ m !! c = Some (apply_affinity ty v).
Proof.
  revert m. induction cols as [|[c0 ty0] cols IH]; intros m Hnd Hb Hin.
  - by apply elem_of_nil in Hin.
  - simpl in Hb. apply NoDup_cons in Hnd as [Hnotin Hnd].
    destruct (bind_value (b !! c0)) as [v0|] eqn:Hv0; [|done].
    destruct (bind_columns cols b) as [m0|] eqn:Hm0; [|done].
    injection Hb as <-.
    apply elem_of_cons in Hin as [[= -> ->]|Hin].
    + exists v0. by rewrite lookup_insert_eq.
    + destruct (IH m0 Hnd eq_refl Hin) as (v & Hv & Hl).
      exists v. split; [done|].
      rewrite lookup_insert_ne; [done|].
      intros ->. apply Hnotin. apply list_elem_of_fmap. by exists (c, ty).
Qed.

Lemma bind_columns_dom cols (b : gmap string jsvalue) m :
  bind_columns cols b = Some m -> dom m = list_to_set cols.*1.
Proof.
  revert m. induction cols as [|[c0 ty0] cols IH]; intros m Hb; simpl in *.
  - injection Hb as <-. by rewrite dom_empty_L.
  - destruct (bind_value (b !! c0)) as [v0|]; [|done].
    destruct (bind_columns cols b) as [m0|]; [|done].
    injection Hb as <-. rewrite dom_insert_L. by rewrite (IH m0).
Qed.

Lemma next_rowid_Some sq ids i :
  next_rowid sq ids = Some i
  <-> Z.max sq (largest_rowid ids) < max_rowid /\ i = Z.max sq (largest_rowid ids) + 1.
Proof.
  unfold next_rowid. destruct (Z.leb_spec max_rowid (Z.max sq (largest_rowid ids))).
  - split; [done|]. lia.
  - split; [intros [= <-]; lia | intros [_ ->]; done].
Qed.

Lemma largest_rowid_app ids i :
  largest_rowid (ids ++ [i]) = Z.max (largest_rowid ids) (Z.max i 0).
Proof.
  unfold largest_rowid. induction ids as [|j ids IH]; simpl; [lia|].
  rewrite IH. lia.
Qed.

Lemma insert_row_Some R t now uid body i t' :
  insert_row R t now (Some (JNum uid)) body = Some (i, t')
  <-> exists cols,
        bind_columns (columns R) body = Some cols
        /\ high_water t < max_rowid
        /\ i = high_water t + 1
        /\ t' = mkTable (rows t ++ [mkRow i (apply_affinity INTEGER (SqlReal uid)) cols now]) i.
Proof.
  unfold insert_row, high_water. simpl. split.
  - destruct (bind_columns (columns R) body) as [cols|]; [|done].
    destruct (next_rowid _ _) as [j|] eqn:Hn; [|done].
    intros [= <- <-]. apply next_rowid_Some in Hn as [? ->]. by exists cols.
  - intros (cols & -> & Hlt & -> & ->).
    by rewrite (proj2 (next_rowid_Some _ _ _) (conj Hlt eq_refl)).
Qed.

Lemma insert_row_high_water R t now uid body i t' :
  insert_row R t now (Some (JNum uid)) body = Some (i, t') ->
  i = high_water t + 1 /\ i <= high_water t'.
Proof.
  intros (cols & _ & _ & -> & ->)%insert_row_Some. split; [done|].
  unfold high_water at 2. simpl. lia.
Qed.

(** Rowids of magnitude up to [2 ^ 53] reach JavaScript unchanged. *)
Lemma js_number_exact z : Z.abs z <= 2 ^ 53 -> js_number z = z.
Proof. intros Hz%Z.leb_le. unfold js_number. cbv zeta. by rewrite Hz. Qed.

(** A positive rowid reads as a positive number. *)
Lemma js_number_pos z : 1 <= z -> 1 <= js_number z.
Proof.
  intros Hz. unfold js_number. cbv zeta.
  destruct (Z.abs z <=? 2 ^ 53) eqn:Hs; [done|].
  apply Z.leb_gt in Hs. rewrite Z.abs_eq in * by lia.
  rewrite Z.sgn_pos by lia.
  destruct (Z.log2_spec z ltac:(lia)) as [Hlo _].
  assert (He : 53 <= Z.log2 z).
  { rewrite <- (Z.log2_pow2 53) by lia. apply Z.log2_le_mono. lia. }
  set (e := Z.log2 z - 52) in *.
  assert (Hpow : 0 < 2 ^ e) by (apply Z.pow_pos_nonneg; lia).
  assert (Hle : 2 ^ e <= z).
  { etrans; [|exact Hlo]. apply Z.pow_le_mono_r; lia. }
  assert (Hq : 1 <= z / 2 ^ e) by (apply Z.div_le_lower_bound; lia).
  destruct (_ <? _); [nia|]. destruct (_ <? _); [nia|]. destruct (Z.even _); nia.
Qed.

Lemma largest_rowid_nonneg ids : 0 <= largest_rowid ids.
Proof. unfold largest_rowid. induction ids as [|j ids IH]; simpl; lia. Qed.

Lemma high_water_nonneg t : 0 <= high_water t.
Proof. unfold high_water. pose proof (largest_rowid_nonneg (row_id <$> rows t)). lia. Qed.

(** The user id read back from a stored row is the number that was bound. *)
Lemma user_id_round_trip uid :
  js_of_sql (apply_affinity INTEGER (SqlReal uid)) = JNum uid.
Proof. simpl. by destruct (_ && _). Qed.

(** A value of the declared type reads back as it was written. *)
Lemma valid_field_round_trip ty v w :
  valid_field ty v = true -> bind_value v = Some w ->
  Some (js_of_sql (apply_affinity ty w)) = v.
Proof.
  destruct ty, v as [[]|]; try done; simpl; intros _ [= <-]; simpl; [done|].
  by destruct (_ && _).
Qed.

(** *** POST /api/R behind the gate *)

Lemma truthy_Some n : truthy n = true <-> exists uid, n = Some uid /\ uid <> 0.
Proof.
  destruct n as [z|]; simpl.
  - rewrite negb_true_iff, Z.eqb_neq. split; [eauto|]. by intros (? & [= <-] & ?).
  - split; [done|]. by intros (? & ? & _).
Qed.

Lemma handle_post_unauthenticated st e R cookie body :
  let r := mkReq (POST_create R) cookie body in
  truthy (sess_userId (session_of st e r)) = false ->
  handle st e r
  = (mkRes 401 (Json {[ "error" := JStr "Unauthorized" ]}) None, st).
Proof.
  intros r Hs. unfold session_of in Hs. unfold handle.
  destruct (load_session st e r) as [[sid s] is_new].
  simpl in Hs. unfold dispatch; simpl.
  rewrite (post_create_unauthenticated _ _ _ _ _ Hs). simpl.
  by rewrite server_eta.
Qed.

Lemma handle_post_authenticated st e R cookie body uid :
  let r := mkReq (POST_create R) cookie body in
  sess_userId (session_of st e r) = Some uid -> uid <> 0 ->
  handle st e r
  = match insert_row R (get_table (db st) R) (env_now e) (Some (JNum uid)) body with
    | Some (i, t) =>
        (mkRes 200 (Json {[ "id" := JNum (js_number i) ]}) None,
         mkServer (set_table (db st) R t) (sessions st))
    | None => (mkRes 500 Uncaught None, st)
    end.
Proof.
  intros r Hu Hnz. unfold session_of in Hu. unfold handle.
  destruct (load_session st e r) as [[sid s] n]. simpl in Hu.
  unfold dispatch, post_create, authenticate; simpl.
  rewrite Hu; simpl. apply Z.eqb_neq in Hnz. rewrite Hnz; simpl.
  by destruct (insert_row _ _ _ _ _) as [[i t]|].
Qed.

(** A 200 answer to a create request comes from a successful INSERT on
    behalf of the session's user. *)
Lemma handle_post_200 st e R cookie body res st' :
  let r := mkReq (POST_create R) cookie body in
  handle st e r = (res, st') -> res_status res = 200 ->
  exists uid i t,
    sess_userId (session_of st e r) = Some uid /\ uid <> 0
    /\ insert_row R (get_table (db st) R) (env_now e) (Some (JNum uid)) body = Some (i, t)
    /\ res = mkRes 200 (Json {[ "id" := JNum (js_number i) ]}) None
    /\ st' = mkServer (set_table (db st) R t) (sessions st).
Proof.
  intros r Hh H200. subst r.
  destruct (truthy (sess_userId (session_of st e
              (mkReq (POST_create R) cookie body)))) eqn:Ht.
  - apply truthy_Some in Ht as (uid & Hu & Hnz).
    rewrite (handle_post_authenticated st e R cookie body uid Hu Hnz) in Hh.
    destruct (insert_row _ _ _ _ _) as [[i t]|] eqn:Hi.
    + injection Hh as <- <-. by exists uid, i, t.
    + injection Hh as <- <-. done.
  - rewrite (handle_post_unauthenticated st e R cookie body Ht) in Hh.
    injection Hh as <- <-. done.
Qed.

(** The id carried by an [{id}] answer. *)
Lemma id_response_inj i j c c' :
  mkRes 200 (Json {[ "id" := JNum i ]}) c = mkRes 200 (Json {[ "id" := JNum j ]}) c' ->
  i = j.
Proof.
  intros Heq.
  pose (get := fun r => match res_body r with
                        | Json o => o !! "id"
                        | _ => None
                        end).
  apply (f_equal get) in Heq. unfold get in Heq. simpl in Heq.
  rewrite !lookup_singleton_eq in Heq. congruence.
Qed.

(** *** What a request can do to the database *)

(** A request leaves the database as it is, or is a create request that
    appended one row to its table. *)
Lemma handle_db_cases st e r :
  db (handle st e r).2 = db st
  \/ exists R uid i t,
       req_route r = POST_create R
       /\ insert_row R (get_table (db st) R) (env_now e) (Some (JNum uid)) (req_body r)
          = Some (i, t)
       /\ db (handle st e r).2 = set_table (db st) R t.
Proof.
  destruct r as [rt cookie body]. destruct rt as [| | |R|R].
  - left. unfold handle.
    destruct (load_session _ _ _) as [[sid s] n]. unfold dispatch; simpl.
    destruct (login _ _ _) as [[[status pl] eff]|]; [|done]. by destruct eff.
  - left. by rewrite handle_logout.
  - left. unfold handle.
    destruct (load_session _ _ _) as [[sid s] n]. unfold dispatch; simpl.
    destruct (me s) as [[status pl] eff] eqn:Hme. unfold me in Hme.
    by destruct (truthy _); injection Hme as <- <- <-.
  - left. unfold handle.
    destruct (load_session _ _ _) as [[sid s] n]. unfold dispatch, get_list; simpl.
    by destruct (authenticate s).
  - destruct (truthy (sess_userId (session_of st e (mkReq (POST_create R) cookie body))))
      eqn:Ht.
    + apply truthy_Some in Ht as (uid & Hu & Hnz).
      rewrite (handle_post_authenticated st e R cookie body uid Hu Hnz).
      destruct (insert_row _ _ _ _ _) as [[i t]|] eqn:Hi; [|by left].
      right. by exists R, uid, i, t.
    + left. by rewrite (handle_post_unauthenticated st e R cookie body Ht).
Qed.

Lemma handle_users st e r : users (db (handle st e r).2) = users (db st).
Proof.
  destruct (handle_db_cases st e r) as [->|(R & uid & i & t & _ & _ & ->)]; [done|].
  apply users_set_table.
Qed.

Lemma handle_rows_prefix st e r R :
  rows (get_table (db st) R) `prefix_of` rows (get_table (db (handle st e r).2) R).
Proof.
  destruct (handle_db_cases st e r) as [->|(R' & uid & i & t & _ & Hi & ->)]; [done|].
  destruct (decide (R' = R)) as [->|Hne].
  - rewrite set_get_table.
    apply insert_row_Some in Hi as (cols & _ & _ & _ & ->). simpl.
    by eexists.
  - by rewrite get_set_table_ne.
Qed.

Lemma handle_high_water st e r R :
  high_water (get_table (db st) R) <= high_water (get_table (db (handle st e r).2) R).
Proof.
  destruct (handle_db_cases st e r) as [->|(R' & uid & i & t & _ & Hi & ->)]; [done|].
  destruct (decide (R' = R)) as [->|Hne].
  - rewrite set_get_table. apply insert_row_high_water in Hi. lia.
  - by rewrite get_set_table_ne.
Qed.

Lemma run_users st tr : users (db (run st tr)) = users (db st).
Proof.
  revert st. induction tr as [|[e r] tr IH]; intros st; simpl; [done|].
  by rewrite IH, handle_users.
Qed.

Lemma run_rows_prefix st tr R :
  rows (get_table (db st) R) `prefix_of` rows (get_table (db (run st tr)) R).
Proof.
  revert st. induction tr as [|[e r] tr IH]; intros st; simpl; [done|].
  etrans; [apply (handle_rows_prefix st e r R) | apply IH].
Qed.

Lemma run_high_water st tr R :
  high_water (get_table (db st) R) <= high_water (get_table (db (run st tr)) R).
Proof.
  revert st. induction tr as [|[e r] tr IH]; intros st; simpl; [done|].
  etrans; [apply (handle_high_water st e r R) | apply IH].
Qed.

(** *** The body is read at the declared fields only *)

Lemma reserved_not_column R c ty :
  (c, ty) ∈ columns R -> c <> "id" /\ c <> "user_id" /\ c <> "created_at".
Proof.
  assert (Hall : Forall (fun c => c.1 <> "id" /\ c.1 <> "user_id" /\ c.1 <> "created_at")
                   (columns R)).
  { destruct R; by apply (bool_decide_unpack _). }
  intros Hin. by apply (proj1 (Forall_forall _ _) Hall (c, ty)).
Qed.

Lemma insert_row_ext R t now u (b1 b2 : gmap string jsvalue) :
  (forall c ty, (c, ty) ∈ columns R -> b1 !! c = b2 !! c) ->
  insert_row R t now u b1 = insert_row R t now u b2.
Proof. intros Hagree. unfold insert_row. by rewrite (bind_columns_ext _ b1 b2). Qed.

Lemma handle_post_ext st e R cookie (b1 b2 : gmap string jsvalue) :
  (forall c ty, (c, ty) ∈ columns R -> b1 !! c = b2 !! c) ->
  handle st e (mkReq (POST_create R) cookie b1)
  = handle st e (mkReq (POST_create R) cookie b2).
Proof.
  intros Hagree. unfold handle.
  change (load_session st e (mkReq (POST_create R) cookie b1))
    with (load_session st e (mkReq (POST_create R) cookie b2)).
  destruct (load_session _ _ _) as [[sid s] n].
  unfold dispatch, post_create; simpl.
  by rewrite (insert_row_ext R _ _ _ b1 b2).
Qed.

(** *** ORDER BY created_at DESC *)

Lemma insert_desc_perm r l : insert_desc r l ≡ₚ r :: l.
Proof.
  induction l as [|x xs IH]; simpl; [done|].
  destruct (row_created_at r <? row_created_at x); [|done].
  rewrite IH. apply Permutation_swap.
Qed.

Lemma order_by_perm l : order_by_created_at_desc l ≡ₚ l.
Proof.
  induction l as [|x xs IH]; simpl; [done|].
  by rewrite insert_desc_perm, IH.
Qed.

Lemma insert_desc_sorted r l :
  StronglySorted (fun a b => row_created_at b <= row_created_at a) l ->
  StronglySorted (fun a b => row_created_at b <= row_created_at a) (insert_desc r l).
Proof.
  induction l as [|x xs IH]; simpl; intros Hs.
  - by repeat constructor.
  - apply StronglySorted_cons in Hs as [Hx Hxs].
    destruct (Z.ltb_spec (row_created_at r) (row_created_at x)) as [Hlt|Hge].
    + apply StronglySorted_cons. split; [|by apply IH].
      rewrite insert_desc_perm. constructor; [lia|done].
    + apply StronglySorted_cons. split.
      * constructor; [done|]. eapply Forall_impl; [exact Hx|]. simpl. intros; lia.
      * by apply StronglySorted_cons.
Qed.

Lemma order_by_sorted l :
  StronglySorted (fun a b => row_created_at b <= row_created_at a)
    (order_by_created_at_desc l).
Proof.
  induction l as [|x xs IH]; simpl; [constructor|]. by apply insert_desc_sorted.
Qed.

(** The engine's answer is one of the listings the query allows. *)
Lemma list_rows_is_listing d R : is_listing (get_table d R) (list_rows d R).
Proof. split; [apply order_by_perm | apply order_by_sorted]. Qed.

(** In a listing, a row comes before every row with a strictly earlier
    [created_at]. *)
Lemma listing_newer_first t l a b :
  is_listing t l -> a ∈ rows t -> b ∈ rows t ->
  row_created_at b < row_created_at a -> precedes l a b.
Proof.
  intros [Hperm Hsorted] Ha Hb Hlt.
  rewrite <- Hperm in Ha, Hb.
  apply list_elem_of_split in Ha as (l1 & l2 & ->).
  apply elem_of_app in Hb as [Hb|Hb].
  - pose proof (StronglySorted_app_1_elem_of _ _ _ b a Hsorted Hb) as Hle.
    simpl in Hle. specialize (Hle ltac:(by left)). lia.
  - apply elem_of_cons in Hb as [->|Hb]; [lia|].
    apply list_elem_of_split in Hb as (l3 & l4 & ->).
    by exists l1, l3, l4.
Qed.

Lemma handle_get_authenticated st e R cookie body :
  truthy (sess_userId (session_of st e (mkReq (GET_list R) cookie body))) = true ->
  handle st e (mkReq (GET_list R) cookie body)
  = (mkRes 200 (JsonRows (list_rows (db st) R)) None, st).
Proof.
  unfold session_of, handle.
  destruct (load_session _ _ _) as [[sid s] n]. simpl. intros Ht.
  unfold dispatch, get_list, authenticate; simpl. rewrite Ht.
  by rewrite server_eta.
Qed.

Lemma valid_fields_spec R (body : gmap string jsvalue) c ty :
  valid_fields R body = true -> (c, ty) ∈ columns R ->
  valid_field ty (body !! c) = true.
Proof.
  unfold valid_fields. rewrite forallb_forall. intros Hall Hin.
  apply (Hall (c, ty)). by apply list_elem_of_In.
Qed.

(** *** The users table and the seed *)

Lemma select_user_string d s :
  select_user d (Some (JStr s))
  = Some (find (fun u => String.eqb (username u) s) (user_rows (users d))).
Proof. reflexivity. Qed.

Lemma find_None_count {A} (f : A -> bool) l :
  find f l = None <-> length (List.filter f l) = 0%nat.
Proof.
  induction l as [|x l IH]; simpl; [done|].
  destruct (f x); simpl; [split; [done | lia]|done].
Qed.

Lemma find_Some_elem {A} (f : A -> bool) l x :
  find f l = Some x -> x ∈ l /\ f x = true.
Proof.
  induction l as [|y l IH]; simpl; [done|].
  destruct (f y) eqn:Hy.
  - intros [= ->]. split; [by left | done].
  - intros Hx. destruct (IH Hx). split; [by right | done].
Qed.

Lemma find_elem_not_None {A} (f : A -> bool) l x :
  x ∈ l -> f x = true -> find f l <> None.
Proof.
  induction l as [|y l IH]; simpl; intros Hin Hx; [by apply elem_of_nil in Hin|].
  apply elem_of_cons in Hin as [<-|Hin]; [by rewrite Hx|].
  destruct (f y); [done | by apply IH].
Qed.

Lemma find_app_None {A} (f : A -> bool) l x :
  find f l = None -> find f (l ++ [x]) = if f x then Some x else None.
Proof.
  induction l as [|y l IH]; simpl; [done|].
  destruct (f y); [done | exact IH].
Qed.

Lemma existsb_find_None {A} (f : A -> bool) l :
  find f l = None -> existsb f l = false.
Proof.
  induction l as [|y l IH]; simpl; [done|].
  destruct (f y); [done | exact IH].
Qed.

Lemma filter_length_app {A} (f : A -> bool) l k :
  length (List.filter f (l ++ k))
  = (length (List.filter f l) + length (List.filter f k))%nat.
Proof. by rewrite List.filter_app, length_app. Qed.

(** Under the UNIQUE constraint a name occurs at most once. *)
Lemma unique_count_le_1 name d :
  usernames_unique d -> (count_users name d <= 1)%nat.
Proof.
  unfold usernames_unique, count_users.
  induction (user_rows (users d)) as [|u l IH]; simpl; [lia|].
  intros [Hnotin Hnd]%NoDup_cons. specialize (IH Hnd).
  destruct (String.eqb_spec (username u) name) as [Heq|Hne]; simpl; [|lia].
  assert (length (List.filter (fun u0 => String.eqb (username u0) name) l) = 0%nat);
    [|lia].
  apply find_None_count. destruct (find _ l) as [u'|] eqn:Hf; [|done].
  apply find_Some_elem in Hf as [Hin Hname]. apply String.eqb_eq in Hname.
  exfalso. apply Hnotin. rewrite Heq, <- Hname. by apply list_elem_of_fmap_2.
Qed.

(** The two ways the seed can complete: the account is there and nothing
    is written, or it is absent and one row is appended to [users]. *)
Lemma seed_cases salt d d' :
  seed salt d = Some d' ->
  (d' = d /\ count_users "admin" d <> 0%nat)
  \/ (count_users "admin" d = 0%nat
      /\ exists i,
           d' = mkDb (mkUsers (user_rows (users d)
                                ++ [mkUser i "admin" (hashSync "admin123" 10 salt) "admin"]) i)
                  (inspections_tbl d) (trip_reports_tbl d)
                  (estimates_tbl d) (minutes_tbl d)).
Proof.
  unfold seed. rewrite select_user_string.
  destruct (find _ _) as [u|] eqn:Hf.
  - intros [= <-]. left. split; [done|].
    unfold count_users. intros Hc%find_None_count. congruence.
  - unfold insert_user. rewrite (existsb_find_None _ _ Hf).
    destruct (next_rowid _ _) as [i|]; [|done].
    intros [= <-]. right. split; [by apply find_None_count | by exists i].
Qed.

Lemma seed_existing salt d :
  count_users "admin" d <> 0%nat -> seed salt d = Some d.
Proof.
  unfold seed, count_users. rewrite select_user_string. intros Hc.
  destruct (find _ _) as [u|] eqn:Hf; [done|].
  by apply find_None_count in Hf.
Qed.

Lemma seed_count salt d d' :
  seed salt d = Some d' ->
  count_users "admin" d' = Nat.max 1 (count_users "admin" d).
Proof.
  intros [[-> Hc]|[Hc [i ->]]]%seed_cases; [lia|].
  rewrite Hc. unfold count_users in *. simpl.
  rewrite filter_length_app, Hc. reflexivity.
Qed.

Lemma seed_unique salt d d' :
  seed salt d = Some d' -> usernames_unique d -> usernames_unique d'.
Proof.
  intros [[-> Hc]|[Hc [i ->]]]%seed_cases Hu; [done|].
  unfold usernames_unique in *. simpl. rewrite fmap_app. simpl.
  apply NoDup_app. split; [done|]. split; [|apply NoDup_singleton].
  intros name Hin Hname. apply list_elem_of_singleton in Hname as ->.
  apply list_elem_of_fmap in Hin as (u & Hname & Hin).
  apply find_None_count in Hc.
  revert Hc. apply (find_elem_not_None _ _ u Hin).
  rewrite <- Hname. apply String.eqb_refl.
Qed.

Lemma boot_db salt d st : boot salt d = Some st -> seed salt d = Some (db st).
Proof. unfold boot. destruct (seed salt d); [|done]. by intros [= <-]. Qed.

(** *** Login *)

(** The three ways the login handler can complete. *)
Lemma login_cases d s body out :
  login d s body = Some out ->
  out = invalid_credentials
  \/ exists u, u ∈ user_rows (users d) /\ out = login_success u.
Proof.
  unfold login.
  destruct (select_user d (body !! "username")) as [[u|]|] eqn:Hsel; [| |done].
  - destruct (compareSync_js _ _) as [[]|]; [| |done].
    + intros [= <-]. right. exists u. split; [|done].
      unfold select_user in Hsel.
      destruct (bind_value _) as [v|]; [|done].
      destruct (apply_affinity TEXT v); try by injection Hsel.
      injection Hsel as Hf. by apply find_Some_elem in Hf as [? _].
    + intros [= <-]. by left.
  - intros [= <-]. by left.
Qed.


Lemma login_known_user d s (body : gmap string jsvalue) name pw u :
  body !! "username" = Some (JStr name) ->
  body !! "password" = Some (JStr pw) ->
  find (fun u => String.eqb (username u) name) (user_rows (users d)) = Some u ->
  login d s body
  = Some (if compareSync pw (password u) then login_success u else invalid_credentials).
Proof.
  unfold login. intros -> -> Hf. rewrite select_user_string, Hf. simpl.
  by destruct (compareSync pw (password u)).
Qed.


Lemma handle_login_success st e cookie body u :
  login (db st) (session_of st e (mkReq POST_login cookie body)) body
    = Some (login_success u) ->
  exists c,
    handle st e (mkReq POST_login cookie body)
    = (mkRes 200 (Json {[ "id" := JNum (js_number (u_id u)); "username" := JStr (username u);
                          "role" := JStr (role u) ]}) c,
       mkServer (db st)
         (<[(load_session st e (mkReq POST_login cookie body)).1.1
            := mkSession (Some (js_number (u_id u))) (Some (username u))]> (sessions st))).
Proof.
  unfold session_of, handle.
  destruct (load_session _ _ _) as [[sid s] n]. simpl. intros Hl.
  unfold dispatch; simpl. rewrite Hl. simpl. by eexists.
Qed.

(** *** Sessions *)






(** *** Answer bodies *)


(** ** Claims *)

(** C1: a POST to any of the four resources that arrives without a valid
    session (the [userId] of its session is unset or falsy) is answered 401
    with the body [{error: 'Unauthorized'}]; the server state is unchanged,
    in particular the number of stored rows of that resource. *)
Theorem post_without_session_is_rejected st e R cookie body :
  let r := mkReq (POST_create R) cookie body in
  truthy (sess_userId (session_of st e r)) = false ->
  handle st e r
    = (mkRes 401 (Json {[ "error" := JStr "Unauthorized" ]}) None, st)
  /\ length (rows (get_table (db (handle st e r).2) R))
      = length (rows (get_table (db st) R)).
Proof.
  intros r Hs.
  pose proof (handle_post_unauthenticated st e R cookie body Hs) as Hh.
  fold r in Hh. split; [exact Hh | by rewrite Hh].
Qed.

(** C7: POST /api/logout answers 200 [{success: true}] whatever the session
    and leaves the database alone; the session of the cookie is gone, so a
    following GET /api/me with the same cookie is answered 401 (also when it
    succeeded before the logout); and a repeated logout, for which the
    middleware generates an identifier not in the store, answers the same
    and changes nothing further. *)
Theorem logout_destroys_the_session st e cookie body :
  let out := handle st e (mkReq POST_logout cookie body) in
  out.1 = mkRes 200 (Json {[ "success" := JBool true ]}) None
  /\ db out.2 = db st
  /\ (forall e' body',
        (handle out.2 e' (mkReq GET_me cookie body')).1
        = mkRes 401 (Json {[ "error" := JStr "Not logged in" ]}) None)
  /\ (forall e' body',
        sessions out.2 !! env_sid e' = None ->
        handle out.2 e' (mkReq POST_logout cookie body') = out).
Proof.
  intros out. subst out. repeat split.
  - by rewrite handle_logout.
  - by rewrite handle_logout.
  - intros e' body'. rewrite handle_me_no_session; [done|].
    unfold session_of. by rewrite load_session_after_logout.
  - intros e' body' Hfresh.
    rewrite (handle_logout (handle _ _ _).2).
    rewrite load_session_after_logout. simpl.
    rewrite delete_id by done. rewrite server_eta.
    by rewrite handle_logout.
Qed.

(** C10 (amended): the ids answered by successful creates on one resource
    grow strictly as long as the rowids of the table stay within the
    integers a JavaScript number holds exactly: when a create answered
    [{id: i1}] and, after any further requests, a later create on the same
    resource answers [{id: i2}] from a table whose largest rowid so far is
    below [2 ^ 53], then [i1 < i2].  The answer carries
    [result.lastInsertRowid] as a JavaScript number; beyond [2 ^ 53]
    neighbouring rowids round to the same number. *)
Theorem created_ids_increase st e1 R cookie1 body1 i1 c1 st1 tr e2 cookie2 body2 i2 c2 st2 :
  handle st e1 (mkReq (POST_create R) cookie1 body1)
    = (mkRes 200 (Json {[ "id" := JNum i1 ]}) c1, st1) ->
  handle (run st1 tr) e2 (mkReq (POST_create R) cookie2 body2)
    = (mkRes 200 (Json {[ "id" := JNum i2 ]}) c2, st2) ->
  high_water (get_table (db (run st1 tr)) R) < 2 ^ 53 ->
  i1 < i2.
Proof.
  intros H1 H2 Hsafe.
  apply handle_post_200 in H1 as (u1 & j1 & t1 & _ & _ & Hi1 & Hr1 & ->); [|done].
  apply handle_post_200 in H2 as (u2 & j2 & t2 & _ & _ & Hi2 & Hr2 & _); [|done].
  apply id_response_inj in Hr1 as ->. apply id_response_inj in Hr2 as ->.
  apply insert_row_high_water in Hi1 as [-> Hle1].
  apply insert_row_high_water in Hi2 as [-> _].
  pose proof (run_high_water (mkServer (set_table (db st) R t1) (sessions st)) tr R) as Hrun.
  simpl in Hrun. rewrite set_get_table in Hrun.
  pose proof (high_water_nonneg (get_table (db st) R)) as Hnn.
  rewrite !js_number_exact by lia. lia.
Qed.

(** C8: a create request stores the declared domain fields of its
    resource and nothing else from the body.  Two bodies that agree on the
    declared fields are served identically (same answer, same resulting
    state), so extra keys are ignored, in particular a [user_id], [id] or
    [created_at] sent by the client.  On success exactly one row is appended
    to the table of the resource: its id is the one answered (as the
    JavaScript number [lastInsertRowid] is), its [user_id]
    is the [userId] of the session, its [created_at] is the clock reading,
    and its domain columns are exactly the declared ones; the other tables,
    the users and the sessions are untouched. *)
Theorem create_stores_declared_fields_only st e R cookie body :
  let r := mkReq (POST_create R) cookie body in
  (forall body',
     (forall c ty, (c, ty) ∈ columns R -> body' !! c = body !! c) ->
     handle st e (mkReq (POST_create R) cookie body') = handle st e r)
  /\ (forall v1 v2 v3,
        handle st e (mkReq (POST_create R) cookie
                       (<["user_id" := v1]> (<["id" := v2]> (<["created_at" := v3]> body))))
        = handle st e r)
  /\ (forall res st',
        handle st e r = (res, st') -> res_status res = 200 ->
        exists uid i rw,
          sess_userId (session_of st e r) = Some uid
          /\ res = mkRes 200 (Json {[ "id" := JNum (js_number i) ]}) None
          /\ rows (get_table (db st') R) = rows (get_table (db st) R) ++ [rw]
          /\ row_id rw = i
          /\ js_of_sql (row_user_id rw) = JNum uid
          /\ row_created_at rw = env_now e
          /\ dom (row_cols rw) = list_to_set (columns R).*1
          /\ (forall R', R' <> R -> get_table (db st') R' = get_table (db st) R')
          /\ users (db st') = users (db st)
          /\ sessions st' = sessions st).
Proof.
  intros r. subst r. split; [|split].
  - intros body' Hagree. by apply handle_post_ext.
  - intros v1 v2 v3. apply handle_post_ext. intros c ty Hin.
    destruct (reserved_not_column R c ty Hin) as (Hid & Huid & Hcr).
    by rewrite !lookup_insert_ne.
  - intros res st' Hh H200.
    apply handle_post_200 in Hh as (uid & i & t & Hu & _ & Hi & -> & ->); [|done].
    apply insert_row_Some in Hi as (cols & Hcols & _ & -> & ->).
    eexists uid, _, _. simpl. rewrite set_get_table. simpl.
    repeat split; try done.
    + apply user_id_round_trip.
    + by apply (bind_columns_dom _ body).
    + intros R' Hne. by apply get_set_table_ne.
    + apply users_set_table.
Qed.

(** C4: the create handlers do not validate the body.  For an
    authenticated create request the answer is either 200 with [{id}] or
    the 500 of an uncaught store failure; there is no other error answer.
    The request succeeds as soon as the fields that are present are values
    the binder accepts and the table has a rowid left, whichever fields are
    missing; the new row then holds NULL in every column whose field is
    absent.  Accordingly, leaving fields out of a body that is accepted
    gives the same answer. *)
Theorem create_accepts_missing_fields st e R cookie body uid :
  let r := mkReq (POST_create R) cookie body in
  let t := get_table (db st) R in
  sess_userId (session_of st e r) = Some uid -> uid <> 0 ->
  ((exists i, (handle st e r).1 = mkRes 200 (Json {[ "id" := JNum i ]}) None)
   \/ (handle st e r).1 = mkRes 500 Uncaught None)
  /\ ((forall c ty, (c, ty) ∈ columns R -> bindable (body !! c) = true) ->
      high_water t < max_rowid ->
      exists rw,
        handle st e r
        = (mkRes 200 (Json {[ "id" := JNum (js_number (high_water t + 1)) ]}) None,
           mkServer (set_table (db st) R (mkTable (rows t ++ [rw]) (high_water t + 1)))
             (sessions st))
        /\ row_id rw = high_water t + 1
        /\ forall c ty, (c, ty) ∈ columns R -> body !! c = None ->
             row_cols rw !! c = Some SqlNull)
  /\ (forall body',
        (forall c, body' !! c = None \/ body' !! c = body !! c) ->
        res_status (handle st e r).1 = 200 ->
        (handle st e (mkReq (POST_create R) cookie body')).1 = (handle st e r).1).
Proof.
  intros r t Hu Hnz. subst r t.
  pose proof (handle_post_authenticated st e R cookie body uid Hu Hnz) as Hh.
  simpl in Hh. split; [|split].
  - rewrite Hh. destruct (insert_row _ _ _ _ _) as [[i t]|];
      [left; by exists (js_number i) | by right].
  - intros Hbind Hroom.
    destruct (proj2 (bind_columns_is_Some (columns R) body) Hbind) as [cols Hcols].
    rewrite Hh.
    rewrite (proj2 (insert_row_Some R _ (env_now e) uid body _ _)
               (ex_intro _ cols (conj Hcols (conj Hroom (conj eq_refl eq_refl))))).
    eexists. split; [reflexivity|]. split; [done|]. simpl.
    intros c ty Hin Hnone.
    destruct (bind_columns_lookup _ _ _ c ty (columns_NoDup R) Hcols Hin) as (v & Hv & ->).
    rewrite Hnone in Hv. injection Hv as <-. by destruct ty.
  - intros body' Homit H200.
    change (session_of st e (mkReq (POST_create R) cookie body))
      with (session_of st e (mkReq (POST_create R) cookie body')) in Hu.
    rewrite (handle_post_authenticated st e R cookie body' uid Hu Hnz).
    rewrite Hh in H200 |- *.
    destruct (insert_row R _ _ _ body) as [[i t]|] eqn:Hi; [|done].
    apply insert_row_Some in Hi as (cols & Hcols & Hroom & -> & ->).
    assert (Hbind' : forall c ty, (c, ty) ∈ columns R -> bindable (body' !! c) = true).
    { intros c ty Hin. destruct (Homit c) as [-> | ->]; [done|].
      by apply (proj1 (bind_columns_is_Some (columns R) body) (mk_is_Some _ _ Hcols) c ty). }
    destruct (proj2 (bind_columns_is_Some (columns R) body') Hbind') as [cols' Hcols'].
    by rewrite (proj2 (insert_row_Some R _ (env_now e) uid body' _ _)
               (ex_intro _ cols' (conj Hcols' (conj Hroom (conj eq_refl eq_refl))))).
Qed.

(** C2 (amended): after an authenticated create with a complete valid
    field set answered [{id}], a later authenticated listing of the resource
    contains a row with that id (the JavaScript number its rowid reads
    as) whose domain fields read back equal to the
    submitted ones, and that row comes before every previously inserted row
    whose [created_at] second is strictly earlier.  The listing is
    descending by [created_at], not strictly: rows created within the same
    second are not ordered by the query.  The statement holds for every
    listing the query allows, of which the answer is one. *)
Theorem created_row_is_listed st e R cookie body i c1 st1 tr e' cookie' body' :
  handle st e (mkReq (POST_create R) cookie body)
    = (mkRes 200 (Json {[ "id" := JNum i ]}) c1, st1) ->
  valid_fields R body = true ->
  let st2 := run st1 tr in
  truthy (sess_userId (session_of st2 e' (mkReq (GET_list R) cookie' body'))) = true ->
  exists rw l,
    handle st2 e' (mkReq (GET_list R) cookie' body') = (mkRes 200 (JsonRows l) None, st2)
    /\ rw ∈ l
    /\ js_number (row_id rw) = i
    /\ (forall c ty, (c, ty) ∈ columns R -> js_of_sql <$> row_cols rw !! c = body !! c)
    /\ (forall old, old ∈ rows (get_table (db st) R) ->
          row_created_at old < env_now e -> precedes l rw old)
    /\ is_listing (get_table (db st2) R) l
    /\ (forall l', is_listing (get_table (db st2) R) l' ->
          rw ∈ l'
          /\ forall old, old ∈ rows (get_table (db st) R) ->
               row_created_at old < env_now e -> precedes l' rw old).
Proof.
  intros Hpost Hvalid st2 Hauth.
  apply handle_post_200 in Hpost as (uid & j & t & _ & _ & Hi & Hr & ->); [|done].
  apply id_response_inj in Hr as ->.
  apply insert_row_Some in Hi as (cols & Hcols & _ & -> & ->).
  set (rw := mkRow (high_water (get_table (db st) R) + 1)
               (apply_affinity INTEGER (SqlReal uid)) cols (env_now e)) in *.
  pose proof (run_rows_prefix
    (mkServer (set_table (db st) R
       (mkTable (rows (get_table (db st) R) ++ [rw])
          (high_water (get_table (db st) R) + 1))) (sessions st)) tr R) as [k Hk].
  fold st2 in Hk. simpl in Hk. rewrite set_get_table in Hk. simpl in Hk.
  assert (Hall : forall l', is_listing (get_table (db st2) R) l' ->
            rw ∈ l'
            /\ forall old, old ∈ rows (get_table (db st) R) ->
                 row_created_at old < env_now e -> precedes l' rw old).
  { intros l' Hl'.
    assert (Hrw : rw ∈ rows (get_table (db st2) R)).
    { rewrite Hk. apply elem_of_app. left. apply elem_of_app. right. by left. }
    split; [destruct Hl' as [Hperm _]; by rewrite Hperm|].
    intros old Hold Hlt. apply (listing_newer_first _ _ _ _ Hl'); [done| |done].
    rewrite Hk. apply elem_of_app. left. apply elem_of_app. by left. }
  pose proof (list_rows_is_listing (db st2) R) as Hlisting.
  exists rw, (list_rows (db st2) R).
  split; [by apply handle_get_authenticated|].
  split; [exact (proj1 (Hall _ Hlisting))|].
  split; [done|]. split; [|split; [exact (proj2 (Hall _ Hlisting))|by split]].
  intros c ty Hin.
  destruct (bind_columns_lookup _ _ _ c ty (columns_NoDup R) Hcols Hin) as (v & Hv & Hl).
  simpl. rewrite Hl. simpl.
  apply valid_field_round_trip; [|done]. by apply (valid_fields_spec R).
Qed.

(** C5: seeding is idempotent.  On a database that already has a user
    named "admin" a boot writes nothing; a boot that completes leaves a
    database on which every later boot completes and writes nothing; and
    under the unique-username invariant, after any positive number of boots
    there is exactly one user named "admin" and the invariant still holds. *)
Theorem seeding_is_idempotent :
  (forall salt d, count_users "admin" d <> 0%nat ->
     boot salt d = Some (mkServer d ∅))
  /\ (forall salt d st, boot salt d = Some st ->
        forall salts, boots salts (db st) = Some (db st))
  /\ (forall salts d d', usernames_unique d -> salts <> [] ->
        boots salts d = Some d' ->
        count_users "admin" d' = 1%nat /\ usernames_unique d').
Proof.
  assert (Hnoop : forall salt d, count_users "admin" d <> 0%nat ->
                    boot salt d = Some (mkServer d ∅)).
  { intros salt d Hc. unfold boot. by rewrite seed_existing. }
  assert (Hafter : forall salt d st, boot salt d = Some st ->
                     count_users "admin" (db st) <> 0%nat).
  { intros salt d st Hb%boot_db. rewrite (seed_count _ _ _ Hb). lia. }
  assert (Hstable : forall salts d, count_users "admin" d <> 0%nat ->
                      boots salts d = Some d).
  { induction salts as [|salt salts IH]; intros d Hc; simpl; [done|].
    rewrite (Hnoop salt d Hc). simpl. by apply IH. }
  split; [exact Hnoop|]. split.
  - intros salt d st Hb salts. apply Hstable. by apply (Hafter salt d).
  - intros salts d d' Hu Hne Hb.
    destruct salts as [|salt salts]; [done|]. simpl in Hb.
    destruct (boot salt d) as [st|] eqn:Hboot; [|done].
    rewrite (Hstable salts (db st) (Hafter _ _ _ Hboot)) in Hb. injection Hb as <-.
    apply boot_db in Hboot.
    pose proof (seed_unique _ _ _ Hboot Hu) as Hu'.
    split; [|done].
    pose proof (unique_count_le_1 "admin" _ Hu').
    pose proof (seed_count _ _ _ Hboot). lia.
Qed.



End ServerProperties.

(** ** The dashboard counters *)

Lemma status_is_spec s (i : gmap string jsvalue) :
  status_is s i = true <-> i !! "status" = Some (JStr s).
Proof.
  unfold status_is. destruct (i !! "status") as [v|]; [|done].
  destruct v as [|b|n|s']; simpl; try done.
  rewrite String.eqb_eq. split; [by intros -> | by intros [= ->]].
Qed.

Lemma filter_status_length s (l : list (gmap string jsvalue)) :
  length (List.filter (status_is s) l) = count_status s l.
Proof.
  induction l as [|i l IH]; simpl; [done|].
  destruct (decide (i !! "status" = Some (JStr s))) as [Heq|Hne].
  - rewrite (proj2 (status_is_spec s i) Heq). simpl. by rewrite IH.
  - destruct (status_is s i) eqn:Hs; [|done].
    by apply status_is_spec in Hs.
Qed.

(** C6: for every list of inspections handed to the dashboard, the three
    counters are the numbers of inspections of the list whose status field
    equals 'pending', 'completed' and 'urgent'; for the statuses
    [pending, urgent, completed, pending] they are 2, 1 and 1. *)
Theorem dashboard_counts_by_status (inspections : list (gmap string jsvalue)) :
  DashboardView inspections
  = {| pending := count_status "pending" inspections;
       completed := count_status "completed" inspections;
       urgent := count_status "urgent" inspections |}
  /\ DashboardView [ {[ "status" := JStr "pending" ]}; {[ "status" := JStr "urgent" ]};
                      {[ "status" := JStr "completed" ]}; {[ "status" := JStr "pending" ]} ]
     = {| pending := 2; completed := 1; urgent := 1 |}.
Proof.
  split; [|reflexivity].
  unfold DashboardView. by rewrite !filter_status_length.
Qed.

(** The list the dashboard counts is the [inspections] state: it is the
    array fetched last while the inspections view was active; the array
    fetched while the dashboard itself is active is not stored. *)
Remark dashboard_fetch_is_not_stored data s :
  fetchData dashboard data s = s
  /\ DashboardView (inspections_state (fetchData (view inspections) data s))
     = DashboardView data.
Proof. by split. Qed.

(** * Concrete runs

    The theorems above instantiated on the concrete session, and the run
    that separates the listing order from the creation order. *)

Section ConcreteRuns.
#[local] Existing Instance decimal_conv.
#[local] Existing Instance tagged_bcrypt.
#[local] Existing Instance development.

Lemma tagged_bcrypt_correct : BcryptCorrect.
Proof. intros s rounds salt. simpl. apply String.eqb_refl. Qed.

Lemma boot_fresh : boot "c2FsdA" fresh_db = Some booted.
Proof. reflexivity. Qed.

Lemma first_create :
  handle logged_in (mkEnv 100 "sid-2") create_inspection
  = (mkRes 200 (Json {[ "id" := JNum 1 ]}) None, one_inspection).
Proof. vm_compute. reflexivity. Qed.

Lemma second_create :
  handle one_inspection (mkEnv 100 "sid-3") create_inspection
  = (mkRes 200 (Json {[ "id" := JNum 2 ]}) None, two_inspections).
Proof. vm_compute. reflexivity. Qed.

Lemma post_without_session_is_rejected_witness :
  truthy (sess_userId (session_of logged_in (mkEnv 100 "sid-2")
                         (mkReq (POST_create inspections) None inspection_fields))) = false
  /\ handle logged_in (mkEnv 100 "sid-2")
       (mkReq (POST_create inspections) None inspection_fields)
     = (mkRes 401 (Json {[ "error" := JStr "Unauthorized" ]}) None, logged_in).
Proof.
  split; [reflexivity|].
  exact (proj1 (post_without_session_is_rejected logged_in (mkEnv 100 "sid-2")
                  inspections None inspection_fields eq_refl)).
Defined.

Lemma created_row_is_listed_witness :
  valid_fields inspections inspection_fields = true
  /\ exists rw,
       js_number (row_id rw) = 1
       /\ rw ∈ list_rows (db one_inspection) inspections
       /\ js_of_sql <$> row_cols rw !! "status" = Some (JStr "pending").
Proof.
  split; [reflexivity|].
  destruct (created_row_is_listed logged_in (mkEnv 100 "sid-2") inspections
              (Some "sid-1") inspection_fields 1 None one_inspection []
              (mkEnv 200 "sid-9") (Some "sid-1") ∅
              first_create eq_refl eq_refl)
    as (rw & l & _ & _ & Hid & Hfields & _ & _ & Hlist).
  exists rw. split; [exact Hid|]. split.
  - exact (proj1 (Hlist _ (list_rows_is_listing _ _))).
  - rewrite (Hfields "status" TEXT); [reflexivity|].
    simpl. do 4 right. left.
Defined.


Lemma create_accepts_missing_fields_witness :
  sess_userId (session_of logged_in (mkEnv 100 "sid-2")
                 (mkReq (POST_create inspections) (Some "sid-1") ∅)) = Some 1
  /\ (handle logged_in (mkEnv 100 "sid-2")
        (mkReq (POST_create inspections) (Some "sid-1") ∅)).1
     = mkRes 200 (Json {[ "id" := JNum 1 ]}) None.
Proof.
  split; [reflexivity|].
  destruct (create_accepts_missing_fields logged_in (mkEnv 100 "sid-2") inspections
              (Some "sid-1") ∅ 1 eq_refl ltac:(discriminate)) as (_ & Hok & _).
  destruct Hok as (rw & Hh & _).
  - intros c ty _. reflexivity.
  - reflexivity.
  - rewrite Hh. reflexivity.
Defined.

Lemma seeding_is_idempotent_witness :
  usernames_unique fresh_db
  /\ boots ["c2FsdA"; "b3RoZXI"; "dGhpcmQ"] fresh_db = Some (db booted)
  /\ count_users "admin" (db booted) = 1%nat.
Proof.
  assert (Hu : usernames_unique fresh_db) by apply NoDup_nil_2.
  split; [exact Hu|]. split; [reflexivity|].
  exact (proj1 (proj2 (proj2 seeding_is_idempotent)
                  ["c2FsdA"; "b3RoZXI"; "dGhpcmQ"] fresh_db (db booted)
                  Hu ltac:(discriminate) eq_refl)).
Defined.

Lemma logout_destroys_the_session_witness :
  (handle logged_in (mkEnv 105 "sid-4") (mkReq GET_me (Some "sid-1") ∅)).1
  = mkRes 200 (Json {[ "id" := JNum 1; "username" := JStr "admin" ]}) None
  /\ (handle logged_out (mkEnv 120 "sid-5") (mkReq GET_me (Some "sid-1") ∅)).1
     = mkRes 401 (Json {[ "error" := JStr "Not logged in" ]}) None
  /\ sessions logged_out !! "sid-5" = None
  /\ handle logged_out (mkEnv 120 "sid-5") (mkReq POST_logout (Some "sid-1") ∅)
     = handle logged_in (mkEnv 110 "sid-4") (mkReq POST_logout (Some "sid-1") ∅).
Proof.
  destruct (logout_destroys_the_session logged_in (mkEnv 110 "sid-4") (Some "sid-1") ∅)
    as (_ & _ & Hme & Hagain).
  split; [reflexivity|]. split; [exact (Hme (mkEnv 120 "sid-5") ∅)|].
  split; [reflexivity|]. exact (Hagain (mkEnv 120 "sid-5") ∅ eq_refl).
Defined.

Lemma create_stores_declared_fields_only_witness :
  exists rw,
    rows (get_table (db one_inspection) inspections) = [rw]
    /\ row_id rw = 1
    /\ js_of_sql (row_user_id rw) = JNum 1
    /\ row_created_at rw = 100.
Proof.
  destruct (create_stores_declared_fields_only logged_in (mkEnv 100 "sid-2") inspections
              (Some "sid-1") inspection_fields) as (_ & _ & Hrow).
  destruct (Hrow _ _ first_create eq_refl)
    as (uid & i & rw & Hu & Hres & Hrows & Hid & Huid & Hat & _).
  exists rw. split; [exact Hrows|].
  assert (uid = 1) as -> by (vm_compute in Hu; congruence).
  assert (i = 1) as ->.
  { rewrite <- Hid. apply (f_equal (fmap row_id)) in Hrows.
    vm_compute in Hrows. injection Hrows as Hrows. exact (eq_sym Hrows). }
  split; [exact Hid|]. split; [exact Huid | exact Hat].
Defined.


Lemma created_ids_increase_witness :
  (handle logged_in (mkEnv 100 "sid-2") create_inspection).1
  = mkRes 200 (Json {[ "id" := JNum 1 ]}) None
  /\ (handle one_inspection (mkEnv 100 "sid-3") create_inspection).1
     = mkRes 200 (Json {[ "id" := JNum 2 ]}) None
  /\ high_water (get_table (db (run one_inspection [])) inspections) < 2 ^ 53
  /\ 1 < 2.
Proof.
  split; [by rewrite first_create|]. split; [by rewrite second_create|].
  split; [reflexivity|].
  exact (created_ids_increase logged_in (mkEnv 100 "sid-2") inspections
           (Some "sid-1") inspection_fields 1 None one_inspection []
           (mkEnv 100 "sid-3") (Some "sid-1") inspection_fields 2 None two_inspections
           first_create second_create eq_refl).
Defined.

(** C10 as stated fails: on a table whose sequence has reached
    [2 ^ 53 - 1], two successive creates are both answered
    [{id: 9007199254740992}], although the rows they store have the rowids
    9007199254740992 and 9007199254740993. *)
Lemma ids_beyond_2_53_repeat :
  handle near_2_53 (mkEnv 100 "sid-2") create_inspection
    = (mkRes 200 (Json {[ "id" := JNum 9007199254740992 ]}) None, at_2_53)
  /\ handle at_2_53 (mkEnv 101 "sid-3") create_inspection
     = (mkRes 200 (Json {[ "id" := JNum 9007199254740992 ]}) None, past_2_53)
  /\ row_id <$> rows (get_table (db past_2_53) inspections)
     = [9007199254740992; 9007199254740993]
  /\ ~ 9007199254740992 < 9007199254740992.
Proof.
  split; [vm_compute; reflexivity|]. split; [vm_compute; reflexivity|].
  split; [vm_compute; reflexivity|]. lia.
Qed.

(** C2 as stated fails: two inspections created within the same second.
    The second create answers [{id: 2}]; the listing that follows returns
    the rows with ids 1, 2 in this order, so the new row does not come
    before the previously inserted one; and since both rows carry the same
    [created_at], no listing the query allows is strictly descending by
    creation time. *)
Lemma same_second_creates_are_listed_oldest_first :
  handle one_inspection (mkEnv 100 "sid-3") create_inspection
    = (mkRes 200 (Json {[ "id" := JNum 2 ]}) None, two_inspections)
  /\ valid_fields inspections inspection_fields = true
  /\ handle two_inspections (mkEnv 101 "sid-4") list_inspections
     = (mkRes 200 (JsonRows (list_rows (db two_inspections) inspections)) None,
        two_inspections)
  /\ row_id <$> rows (get_table (db one_inspection) inspections) = [1]
  /\ row_id <$> list_rows (db two_inspections) inspections = [1; 2]
  /\ (forall new old, row_id new = 2 -> row_id old = 1 ->
        ~ precedes (list_rows (db two_inspections) inspections) new old)
  /\ (forall l', is_listing (get_table (db two_inspections) inspections) l' ->
        ~ StronglySorted (fun a b => row_created_at b < row_created_at a) l').
Proof.
  set (l := list_rows (db two_inspections) inspections).
  assert (Hids : row_id <$> l = [1; 2]) by (vm_compute; reflexivity).
  split; [exact second_create|]. split; [reflexivity|].
  split; [vm_compute; reflexivity|]. split; [vm_compute; reflexivity|].
  split; [exact Hids|]. split.
  - intros new old Hnew Hold (l1 & l2 & l3 & Hl).
    rewrite Hl in Hids. rewrite fmap_app, fmap_cons, fmap_app, fmap_cons in Hids.
    rewrite Hnew, Hold in Hids.
    destruct l1 as [|x [|y l1]]; simpl in Hids.
    + congruence.
    + injection Hids as _ Hids. by apply app_eq_nil in Hids as [_ ?].
    + injection Hids as _ _ Hids. by apply app_eq_nil in Hids as [_ ?].
  - intros l' [Hperm _] Hsorted.
    assert (Hat : Forall (fun r => row_created_at r = 100) l').
    { rewrite Hperm. vm_compute. by repeat constructor. }
    apply Permutation_length in Hperm.
    change (length l' = 2%nat) in Hperm.
    destruct l' as [|a [|b [|c l']]]; try done.
    apply StronglySorted_cons in Hsorted as [Hab _].
    apply Forall_cons in Hab as [Hab _].
    apply Forall_cons in Hat as [Ha Hat]. apply Forall_cons in Hat as [Hb _].
    lia.
Qed.


End ConcreteRuns.

(** * Further properties of the server *)

Section FurtherServerProperties.
Context {conv : SqliteConv} {bc : Bcrypt} {dep : Deployment}.

(** ** Sessions and the gate *)

Lemma load_session_old st e r sid s :
  load_session st e r = (sid, s, false) ->
  req_cookie r = Some sid /\ sessions st !! sid = Some s.
Proof.
  unfold load_session. destruct (req_cookie r) as [c|]; [|done].
  destruct (sessions st !! c) as [s0|] eqn:Hc; [|done].
  by intros [= <- <-].
Qed.

Lemma load_session_stored st e rt c body s :
  sessions st !! c = Some s ->
  load_session st e (mkReq rt (Some c) body) = (c, s, false).
Proof. unfold load_session; simpl. by intros ->. Qed.

Lemma handle_me_session st e cookie body uid name :
  session_of st e (mkReq GET_me cookie body) = mkSession (Some uid) (Some name) ->
  uid <> 0 ->
  handle st e (mkReq GET_me cookie body)
  = (mkRes 200 (Json {[ "id" := JNum uid; "username" := JStr name ]}) None, st).
Proof.
  unfold session_of, handle.
  destruct (load_session _ _ _) as [[sid s] n]. simpl. intros -> Hnz.
  unfold dispatch, me; simpl. apply Z.eqb_neq in Hnz. rewrite Hnz. simpl.
  by rewrite server_eta.
Qed.

Lemma handle_get_unauthenticated st e R cookie body :
  truthy (sess_userId (session_of st e (mkReq (GET_list R) cookie body))) = false ->
  handle st e (mkReq (GET_list R) cookie body)
  = (mkRes 401 (Json {[ "error" := JStr "Unauthorized" ]}) None, st).
Proof.
  unfold session_of, handle.
  destruct (load_session _ _ _) as [[sid s] n]. simpl. intros Hs.
  unfold dispatch; simpl. rewrite (get_list_unauthenticated _ _ _ Hs). simpl.
  by rewrite server_eta.
Qed.

(** X1: a listing request without a valid session is answered 401
    [{error: 'Unauthorized'}] for each of the four resources, and the
    server state is unchanged. *)
Theorem get_without_session_is_rejected st e R cookie body :
  truthy (sess_userId (session_of st e (mkReq (GET_list R) cookie body))) = false ->
  handle st e (mkReq (GET_list R) cookie body)
  = (mkRes 401 (Json {[ "error" := JStr "Unauthorized" ]}) None, st).
Proof. apply handle_get_unauthenticated. Qed.

(** X2: an authenticated listing request answers 200 with every row of the
    table, each exactly once (no paging, no filter), arranged so that
    [created_at] never increases, and leaves the server state unchanged. *)
Theorem listing_returns_every_row st e R cookie body :
  truthy (sess_userId (session_of st e (mkReq (GET_list R) cookie body))) = true ->
  exists l,
    handle st e (mkReq (GET_list R) cookie body) = (mkRes 200 (JsonRows l) None, st)
    /\ l ≡ₚ rows (get_table (db st) R)
    /\ length l = length (rows (get_table (db st) R))
    /\ StronglySorted (fun a b => row_created_at b <= row_created_at a) l.
Proof.
  intros Ht. exists (list_rows (db st) R).
  destruct (list_rows_is_listing (db st) R) as [Hperm Hsorted].
  split; [by apply handle_get_authenticated|].
  split; [done|]. split; [by rewrite Hperm | done].
Qed.

(** X3: GET /api/me succeeds exactly when the gate of the protected routes
    lets the same cookie through: it answers 200 iff a listing request
    answers 200, iff a create request is not answered 401. *)
Theorem me_agrees_with_the_gate st e cookie R b1 b2 b3 :
  (res_status (handle st e (mkReq GET_me cookie b1)).1 = 200
   <-> res_status (handle st e (mkReq (GET_list R) cookie b2)).1 = 200)
  /\ (res_status (handle st e (mkReq GET_me cookie b1)).1 = 200
      <-> res_status (handle st e (mkReq (POST_create R) cookie b3)).1 <> 401).
Proof.
  destruct (truthy (sess_userId (session_of st e (mkReq GET_me cookie b1)))) eqn:Ht.
  - assert (Hme : res_status (handle st e (mkReq GET_me cookie b1)).1 = 200).
    { unfold session_of in Ht. unfold handle.
      destruct (load_session _ _ _) as [[sid s] n]. simpl in Ht.
      unfold dispatch, me; simpl. by rewrite Ht. }
    split; split; intros _; try exact Hme.
    + by rewrite (handle_get_authenticated st e R cookie b2 Ht).
    + apply truthy_Some in Ht as (uid & Hu & Hnz).
      rewrite (handle_post_authenticated st e R cookie b3 uid Hu Hnz).
      by destruct (insert_row _ _ _ _ _) as [[i t]|].
  - rewrite (handle_me_no_session st e cookie b1 Ht).
    rewrite (handle_get_unauthenticated st e R cookie b2 Ht).
    rewrite (handle_post_unauthenticated st e R cookie b3 Ht). simpl.
    split; split; intros Hx; done.
Qed.

(** A login answered 200 matched a stored user by the submitted name and
    verified the submitted password, a string, against that user's hash. *)
Lemma login_200_inv d s body out :
  login d s body = Some out -> out.1.1 = 200 ->
  exists u pw,
    select_user d (body !! "username") = Some (Some u)
    /\ body !! "password" = Some (JStr pw)
    /\ compareSync pw (password u) = true
    /\ out = login_success u.
Proof.
  unfold login.
  destruct (select_user d (body !! "username")) as [[u|]|] eqn:Hsel; [| |done].
  - destruct (body !! "password") as [[| |n|pw]|] eqn:Hpw; try done. simpl.
    destruct (compareSync pw (password u)) eqn:Hc.
    + intros [= <-] _. by exists u, pw.
    + by intros [= <-].
  - by intros [= <-].
Qed.

Lemma select_user_Some d arg u :
  select_user d arg = Some (Some u) ->
  u ∈ user_rows (users d)
  /\ forall name, arg = Some (JStr name) -> username u = name.
Proof.
  unfold select_user. destruct (bind_value arg) as [v|] eqn:Hb; [|done].
  destruct (apply_affinity TEXT v) as [| | |s] eqn:Ha; try by intros [= ?].
  intros [= Hf]. apply find_some in Hf as [Hin Heq]. apply String.eqb_eq in Heq.
  split; [by apply list_elem_of_In|].
  intros name ->. simpl in Hb. injection Hb as <-. simpl in Ha. congruence.
Qed.

(** What a login answered 200 leaves behind. *)
Lemma login_200_session st e cookie body res st' :
  let r := mkReq POST_login cookie body in
  let sid := request_sid st e r in
  handle st e r = (res, st') ->
  res_status res = 200 ->
  exists u pw,
    select_user (db st) (body !! "username") = Some (Some u)
    /\ body !! "password" = Some (JStr pw)
    /\ compareSync pw (password u) = true
    /\ res = mkRes 200
               (Json {[ "id" := JNum (js_number (u_id u)); "username" := JStr (username u);
                        "role" := JStr (role u) ]})
               (if (load_session st e r).2 && negb production then Some sid else None)
    /\ st' = mkServer (db st)
               (<[sid := mkSession (Some (js_number (u_id u))) (Some (username u))]> (sessions st)).
Proof.
  intros r sid Hh H200. subst r sid. revert Hh. unfold request_sid, handle.
  destruct (load_session _ _ _) as [[sid s] n] eqn:Hload. unfold dispatch; simpl.
  destruct (login _ _ _) as [out|] eqn:Hl.
  - destruct out as [[status pl] eff].
    destruct eff as [|s'|]; intros [= <- <-]; simpl in H200;
      destruct (login_200_inv _ _ _ _ Hl H200) as (u & pw & Hsel & Hpw & Hc & Hout);
      injection Hout as -> -> Heff; try done.
    subst s'. by exists u, pw.
  - intros [= <- _]. done.
Qed.

Lemma session_of_cookie st e rt c b s :
  sessions st !! c = Some s -> session_of st e (mkReq rt (Some c) b) = s.
Proof. intros Hs. unfold session_of. by rewrite (load_session_stored st e rt c b s Hs). Qed.

(** X4: a login answered 200 is the login of the user row the submitted
    name selects, whose hash the submitted password, a string, verifies
    against.  The answer is that user's [{id, username, role}]; the
    database is left alone; the session of that user is stored under the
    identifier the request was served under, and nothing else in the
    session store changes.  Every later request carrying that identifier is
    served with that session, and when the user's id is not 0, GET /api/me
    with it answers 200 with that user's [{id, username}].  The identifier
    reaches the browser only if the request already carried it or the
    process does not run in production: a new session's cookie is set
    exactly when [production] is off. *)
Theorem login_establishes_the_session st e cookie body res st' :
  let r := mkReq POST_login cookie body in
  let sid := request_sid st e r in
  handle st e r = (res, st') ->
  res_status res = 200 ->
  exists u pw,
    select_user (db st) (body !! "username") = Some (Some u)
    /\ u ∈ user_rows (users (db st))
    /\ (forall name, body !! "username" = Some (JStr name) -> username u = name)
    /\ body !! "password" = Some (JStr pw)
    /\ compareSync pw (password u) = true
    /\ res_body res
       = Json {[ "id" := JNum (js_number (u_id u)); "username" := JStr (username u);
                 "role" := JStr (role u) ]}
    /\ res_set_cookie res
       = (if (load_session st e r).2 && negb production then Some sid else None)
    /\ st' = mkServer (db st)
               (<[sid := mkSession (Some (js_number (u_id u))) (Some (username u))]> (sessions st))
    /\ (forall e' rt b,
          session_of st' e' (mkReq rt (Some sid) b)
          = mkSession (Some (js_number (u_id u))) (Some (username u)))
    /\ (js_number (u_id u) <> 0 ->
        forall e' b,
          handle st' e' (mkReq GET_me (Some sid) b)
          = (mkRes 200
               (Json {[ "id" := JNum (js_number (u_id u));
                        "username" := JStr (username u) ]})
               None, st'))
    /\ ((load_session st e r).2 = false \/ production = false ->
        cookie_after cookie res = Some sid)
    /\ ((load_session st e r).2 = true -> production = true ->
        cookie_after cookie res = cookie).
Proof.
  intros r sid Hh H200.
  destruct (login_200_session st e cookie body res st' Hh H200)
    as (u & pw & Hsel & Hpw & Hc & -> & ->).
  fold r sid.
  destruct (select_user_Some _ _ _ Hsel) as [Hin Hname].
  assert (Hs : forall e' rt b,
            session_of (mkServer (db st)
                          (<[sid := mkSession (Some (js_number (u_id u))) (Some (username u))]>
                             (sessions st))) e' (mkReq rt (Some sid) b)
            = mkSession (Some (js_number (u_id u))) (Some (username u))).
  { intros e' rt b. apply session_of_cookie. simpl. by rewrite lookup_insert_eq. }
  exists u, pw. repeat (split; [done|]).
  split; [intros Hnz e' b; by apply handle_me_session|].
  unfold cookie_after; simpl. subst sid r. unfold request_sid.
  destruct (load_session st e _) as [[sid0 s0] n] eqn:Hload. simpl. split.
  - intros Hcase. destruct n.
    + destruct Hcase as [?| ->]; done.
    + simpl. by apply load_session_old in Hload as [Hcookie _].
  - intros -> ->. done.
Qed.

(** X5: a request touches no session but its own: every other entry of
    the session store is as before, so a request made with another cookie
    afterwards is served with the same session as it would have been
    before.  In particular one client's logout does not log out another. *)
Theorem other_sessions_are_untouched st e r :
  (forall sid', sid' <> request_sid st e r ->
     sessions (handle st e r).2 !! sid' = sessions st !! sid')
  /\ (forall e' rt c' b,
        c' <> request_sid st e r ->
        session_of (handle st e r).2 e' (mkReq rt (Some c') b)
        = session_of st e' (mkReq rt (Some c') b)).
Proof.
  assert (Hother : forall sid', sid' <> request_sid st e r ->
            sessions (handle st e r).2 !! sid' = sessions st !! sid').
  { intros sid'. unfold request_sid, handle.
    destruct (load_session st e r) as [[sid s] n]. simpl. intros Hne.
    destruct (dispatch _ _ _ _) as [[[[status pl] eff] d']|]; [|done].
    destruct eff; simpl; [done| |].
    - by rewrite lookup_insert_ne.
    - by rewrite lookup_delete_ne. }
  split; [exact Hother|].
  intros e' rt c' b Hne. unfold session_of, load_session; simpl.
  by rewrite (Hother c' Hne).
Qed.

(** ** Tables *)

Lemma largest_rowid_ge ids i : i ∈ ids -> i <= largest_rowid ids.
Proof.
  unfold largest_rowid. induction ids as [|j ids IH]; simpl; intros Hin.
  - by apply elem_of_nil in Hin.
  - apply elem_of_cons in Hin as [->|Hin]; [lia|]. specialize (IH Hin). lia.
Qed.

(** The two ways a create request can end: one row appended and 200
    answered, or another status and no change at all. *)
Lemma handle_create_cases st e R cookie body :
  (exists uid i t,
     insert_row R (get_table (db st) R) (env_now e) (Some (JNum uid)) body = Some (i, t)
     /\ handle st e (mkReq (POST_create R) cookie body)
        = (mkRes 200 (Json {[ "id" := JNum (js_number i) ]}) None,
           mkServer (set_table (db st) R t) (sessions st)))
  \/ (res_status (handle st e (mkReq (POST_create R) cookie body)).1 <> 200
      /\ (handle st e (mkReq (POST_create R) cookie body)).2 = st).
Proof.
  destruct (truthy (sess_userId (session_of st e (mkReq (POST_create R) cookie body))))
    eqn:Ht.
  - apply truthy_Some in Ht as (uid & Hu & Hnz).
    rewrite (handle_post_authenticated st e R cookie body uid Hu Hnz).
    destruct (insert_row _ _ _ _ _) as [[i t]|] eqn:Hi; [|by right].
    left. by exists uid, i, t.
  - right. by rewrite (handle_post_unauthenticated st e R cookie body Ht).
Qed.

Lemma insert_row_fresh_id R t now uid body i t' :
  insert_row R t now (Some (JNum uid)) body = Some (i, t') ->
  i ∉ row_id <$> rows t.
Proof.
  intros (cols & _ & _ & -> & _)%insert_row_Some Hin.
  apply largest_rowid_ge in Hin. unfold high_water in Hin. lia.
Qed.

Lemma handle_ids_NoDup st e r R :
  NoDup (row_id <$> rows (get_table (db st) R)) ->
  NoDup (row_id <$> rows (get_table (db (handle st e r).2) R)).
Proof.
  intros Hnd.
  destruct (handle_db_cases st e r) as [->|(R' & uid & i & t & _ & Hi & ->)]; [done|].
  destruct (decide (R' = R)) as [->|Hne]; [|by rewrite get_set_table_ne].
  rewrite set_get_table.
  pose proof (insert_row_fresh_id _ _ _ _ _ _ _ Hi) as Hfresh.
  apply insert_row_Some in Hi as (cols & _ & _ & _ & ->). simpl.
  rewrite fmap_app. simpl. apply NoDup_app. split; [done|].
  split; [|apply NoDup_singleton].
  intros j Hj Hj'. apply list_elem_of_singleton in Hj'. by subst.
Qed.

(** X6: no sequence of requests changes the users table (no route creates,
    changes or removes a user), and the business tables only grow at the
    end: the rows a table held stay, unchanged and in place, as a prefix of
    its rows afterwards (no route updates or deletes). *)
Theorem tables_only_grow st tr R :
  users (db (run st tr)) = users (db st)
  /\ rows (get_table (db st) R) `prefix_of` rows (get_table (db (run st tr)) R)
  /\ (forall n rw, rows (get_table (db st) R) !! n = Some rw ->
        rows (get_table (db (run st tr)) R) !! n = Some rw).
Proof.
  split; [apply run_users|].
  pose proof (run_rows_prefix st tr R) as Hp.
  split; [exact Hp|]. intros n rw Hn. by apply (prefix_lookup_Some _ _ _ _ Hn).
Qed.

(** X7: row ids stay a key.  If the ids of a table are pairwise distinct,
    they are so after any sequence of requests.  The row a successful
    create appends has an id that no row already in the table has, and the
    answer carries that id as a JavaScript number; as long as the largest
    rowid of the table is below [2 ^ 53] the answered id is the stored id,
    hence the id of no row that was already in the table. *)
Theorem rowids_stay_unique st R :
  (forall tr,
     NoDup (row_id <$> rows (get_table (db st) R)) ->
     NoDup (row_id <$> rows (get_table (db (run st tr)) R)))
  /\ (forall e cookie body i c st',
        handle st e (mkReq (POST_create R) cookie body)
          = (mkRes 200 (Json {[ "id" := JNum i ]}) c, st') ->
        exists rw,
          rows (get_table (db st') R) = rows (get_table (db st) R) ++ [rw]
          /\ i = js_number (row_id rw)
          /\ (forall old, old ∈ rows (get_table (db st) R) -> row_id old <> row_id rw)
          /\ (high_water (get_table (db st) R) < 2 ^ 53 ->
              i = row_id rw
              /\ forall old, old ∈ rows (get_table (db st) R) -> row_id old <> i)).
Proof.
  split.
  - intros tr. revert st. induction tr as [|[e r] tr IH]; intros st Hnd; simpl; [done|].
    by apply IH, handle_ids_NoDup.
  - intros e cookie body i c st' Hh.
    apply handle_post_200 in Hh as (uid & j & t & _ & _ & Hi & Hr & ->); [|done].
    apply id_response_inj in Hr as ->.
    pose proof (insert_row_fresh_id _ _ _ _ _ _ _ Hi) as Hfresh.
    apply insert_row_Some in Hi as (cols & _ & _ & -> & ->).
    eexists. simpl. rewrite set_get_table. simpl.
    split; [reflexivity|]. split; [reflexivity|]. simpl.
    assert (Hold : forall old, old ∈ rows (get_table (db st) R) ->
              row_id old <> high_water (get_table (db st) R) + 1).
    { intros old Hin Heq. apply Hfresh. rewrite <- Heq. by apply list_elem_of_fmap_2. }
    split; [exact Hold|]. intros Hsafe.
    pose proof (high_water_nonneg (get_table (db st) R)) as Hnn.
    rewrite js_number_exact by lia. by split.
Qed.

(** X8: a request is all or nothing for a table.  A create request on [R]
    answered 200 appends exactly one row to [R], and the answer is [{id}]
    with the id of that row as a JavaScript number; any other request, and
    a create request on [R] answered otherwise, leaves the rows of [R]
    exactly as they were. *)
Theorem create_is_all_or_nothing st e r R :
  (req_route r = POST_create R -> res_status (handle st e r).1 = 200 ->
     exists rw,
       res_body (handle st e r).1 = Json {[ "id" := JNum (js_number (row_id rw)) ]}
       /\ rows (get_table (db (handle st e r).2) R) = rows (get_table (db st) R) ++ [rw])
  /\ (req_route r <> POST_create R \/ res_status (handle st e r).1 <> 200 ->
      rows (get_table (db (handle st e r).2) R) = rows (get_table (db st) R)).
Proof.
  split.
  - destruct r as [rt cookie body]. simpl. intros -> H200.
    destruct (handle_create_cases st e R cookie body)
      as [(uid & i & t & Hi & Hh)|[Hne _]]; [|done].
    rewrite Hh. simpl. rewrite set_get_table.
    apply insert_row_Some in Hi as (cols & _ & _ & -> & ->). simpl.
    eexists. split; [|reflexivity]. reflexivity.
  - intros Hcase.
    destruct (handle_db_cases st e r) as [->|(R' & uid & i & t & Hroute & Hi & Hdb)];
      [done|].
    rewrite Hdb. destruct (decide (R' = R)) as [->|Hne]; [|by rewrite get_set_table_ne].
    exfalso. destruct r as [rt cookie body]. simpl in *. subst rt.
    destruct Hcase as [Hc|Hc]; [done|].
    destruct (handle_create_cases st e R cookie body)
      as [(uid' & i' & t' & _ & Hh)|[_ Hst]].
    + by rewrite Hh in Hc.
    + rewrite Hst in Hdb.
      apply (f_equal (fun d => length (rows (get_table d R)))) in Hdb.
      rewrite set_get_table in Hdb.
      apply insert_row_Some in Hi as (cols & _ & _ & _ & ->). simpl in Hdb.
      rewrite length_app in Hdb. simpl in Hdb. lia.
Qed.

(** ** Sessions and users *)

(** Only login writes a session, and it writes the one of a stored user. *)
Lemma dispatch_set_session d s e r status pl s' d' :
  dispatch d s e r = Some (status, pl, SessSet s', d') ->
  exists u, u ∈ user_rows (users d)
            /\ s' = mkSession (Some (js_number (u_id u))) (Some (username u)).
Proof.
  unfold dispatch. destruct (req_route r) as [| | |R|R].
  - destruct (login _ _ _) as [out|] eqn:Hl; [|done].
    intros [= -> <-].
    apply login_cases in Hl as [Hl|(u & Hin & Hl)]; [by injection Hl|].
    injection Hl as _ _ ->. by exists u.
  - by intros [= _ _ ? _].
  - unfold me. by destruct (truthy _); intros [= _ _ ? _].
  - unfold get_list. by destruct (authenticate _); intros [= _ _ ? _].
  - unfold post_create. destruct (authenticate _).
    + destruct (insert_row _ _ _ _ _) as [[i t]|]; [|done]. by intros [= _ _ ? _].
    + by intros [= _ _ ? _].
Qed.

Lemma handle_sessions_of_users st e r :
  sessions_of_users st -> sessions_of_users (handle st e r).2.
Proof.
  intros Hinv sid0 s0. rewrite (handle_users st e r).
  unfold handle. destruct (load_session st e r) as [[sid s] n].
  destruct (dispatch _ _ _ _) as [[[[status pl] eff] d']|] eqn:Hd; [|by apply Hinv].
  destruct eff as [|s'|]; simpl.
  - by apply Hinv.
  - intros [[_ <-]|[_ Hl]]%lookup_insert_Some; [|by apply (Hinv sid0)].
    by apply dispatch_set_session in Hd.
  - intros [_ Hl]%lookup_delete_Some. by apply (Hinv sid0).
Qed.

Lemma run_sessions_of_users st tr :
  sessions_of_users st -> sessions_of_users (run st tr).
Proof.
  revert st. induction tr as [|[e r] tr IH]; intros st Hinv; simpl; [done|].
  by apply IH, handle_sessions_of_users.
Qed.

Lemma boot_sessions_of_users salt d st :
  boot salt d = Some st -> sessions_of_users st.
Proof.
  unfold boot. destruct (seed salt d); [|done]. intros [= <-] sid s Hl.
  simpl in Hl. by rewrite lookup_empty in Hl.
Qed.

(** A session that carries a [userId] was loaded from the store. *)
Lemma session_of_stored st e r uid :
  sess_userId (session_of st e r) = Some uid ->
  exists c, req_cookie r = Some c /\ sessions st !! c = Some (session_of st e r).
Proof.
  unfold session_of, load_session.
  destruct (req_cookie r) as [c|]; simpl; [|done].
  destruct (sessions st !! c) as [s|] eqn:Hc; simpl; [|done].
  intros _. by exists c.
Qed.

(** X9: on a server that was booted, after any sequence of requests, every
    session in the store is the session of a user of the users table: it
    holds that user's id, as the JavaScript number the login read, and
    username.  (The store starts empty at boot, only a successful login
    writes to it, and users are never changed.) *)
Theorem sessions_belong_to_users salt d st0 tr :
  boot salt d = Some st0 ->
  forall sid s, sessions (run st0 tr) !! sid = Some s ->
    exists u, u ∈ user_rows (users (db (run st0 tr)))
              /\ sess_userId s = Some (js_number (u_id u))
              /\ sess_username s = Some (username u).
Proof.
  intros Hboot sid s Hl.
  destruct (run_sessions_of_users st0 tr (boot_sessions_of_users _ _ _ Hboot) sid s Hl)
    as (u & Hin & ->).
  by exists u.
Qed.

(** X10: on a server that was booted, after any sequence of requests, a
    create answered 200 stores a row whose [user_id] is the id of a user of
    the users table, as the JavaScript number the login read, namely of the
    user the request's session was logged in as. *)
Theorem created_rows_have_an_existing_creator salt d st0 tr e R cookie body res st' :
  boot salt d = Some st0 ->
  handle (run st0 tr) e (mkReq (POST_create R) cookie body) = (res, st') ->
  res_status res = 200 ->
  exists u rw,
    u ∈ user_rows (users (db st'))
    /\ sess_username (session_of (run st0 tr) e (mkReq (POST_create R) cookie body))
       = Some (username u)
    /\ last (rows (get_table (db st') R)) = Some rw
    /\ js_of_sql (row_user_id rw) = JNum (js_number (u_id u)).
Proof.
  intros Hboot Hh H200.
  apply handle_post_200 in Hh as (uid & i & t & Hu & _ & Hi & _ & ->); [|done].
  destruct (session_of_stored _ _ _ _ Hu) as (c & _ & Hc).
  destruct (run_sessions_of_users st0 tr (boot_sessions_of_users _ _ _ Hboot) c _ Hc)
    as (u & Hin & Hs).
  rewrite Hs in Hu. injection Hu as <-.
  apply insert_row_Some in Hi as (cols & _ & _ & -> & ->).
  eexists u, _. simpl. rewrite users_set_table, set_get_table. simpl.
  split; [done|]. split; [by rewrite Hs|]. split; [by rewrite last_snoc|].
  apply user_id_round_trip.
Qed.

(** ** Listing order *)

Lemma strictly_increasing_injective (l : list row) a b :
  StronglySorted (fun x y => row_created_at x < row_created_at y) l ->
  a ∈ l -> b ∈ l -> row_created_at a = row_created_at b -> a = b.
Proof.
  induction l as [|x l IH]; intros Hs Ha Hb Heq; [by apply elem_of_nil in Ha|].
  apply StronglySorted_cons in Hs as [Hx Hs].
  rewrite Forall_forall in Hx.
  apply elem_of_cons in Ha as [->|Ha]; apply elem_of_cons in Hb as [->|Hb].
  - done.
  - specialize (Hx b Hb). lia.
  - specialize (Hx a Ha). lia.
  - by apply IH.
Qed.

Lemma strictly_increasing_reverse (l : list row) :
  StronglySorted (fun x y => row_created_at x < row_created_at y) l ->
  StronglySorted (fun a b => row_created_at b <= row_created_at a) (reverse l).
Proof.
  induction l as [|x l IH]; intros Hs; [constructor|].
  apply StronglySorted_cons in Hs as [Hx Hs]. rewrite reverse_cons.
  apply StronglySorted_app_2; [|by apply IH|repeat constructor].
  intros a b Ha Hb. apply list_elem_of_singleton in Hb as ->.
  rewrite elem_of_reverse in Ha. rewrite Forall_forall in Hx. specialize (Hx a Ha). lia.
Qed.

(** X11: newest first, when the clock separates the creates.  If the rows
    of a table were created at strictly increasing seconds, every listing
    the query allows is exactly the table in reverse order of creation, and
    this is what an authenticated listing request answers. *)
Theorem listing_is_newest_first st e R cookie body :
  StronglySorted (fun x y => row_created_at x < row_created_at y)
    (rows (get_table (db st) R)) ->
  (forall l, is_listing (get_table (db st) R) l ->
     l = reverse (rows (get_table (db st) R)))
  /\ (truthy (sess_userId (session_of st e (mkReq (GET_list R) cookie body))) = true ->
      handle st e (mkReq (GET_list R) cookie body)
      = (mkRes 200 (JsonRows (reverse (rows (get_table (db st) R)))) None, st)).
Proof.
  intros Hinc.
  assert (Hall : forall l, is_listing (get_table (db st) R) l ->
            l = reverse (rows (get_table (db st) R))).
  { intros l [Hperm Hsorted].
    apply (StronglySorted_unique_strong
             (fun a b => row_created_at b <= row_created_at a)); [|done| |].
    - intros a b Ha Hb Hab Hba. apply (strictly_increasing_injective _ a b Hinc).
      + by rewrite <- Hperm.
      + by rewrite <- elem_of_reverse.
      + lia.
    - by apply strictly_increasing_reverse.
    - by rewrite reverse_Permutation. }
  split; [exact Hall|]. intros Ht.
  rewrite (handle_get_authenticated st e R cookie body Ht).
  by rewrite (Hall _ (list_rows_is_listing (db st) R)).
Qed.

(** ** The seeded account end to end *)

(** The row the seed writes gets a positive id. *)
Lemma seed_fresh_id salt d d' :
  seed salt d = Some d' -> count_users "admin" d = 0%nat ->
  exists i, 1 <= i
    /\ users d' = mkUsers (user_rows (users d)
                            ++ [mkUser i "admin" (hashSync "admin123" 10 salt) "admin"]) i.
Proof.
  unfold seed, count_users. rewrite select_user_string. intros Hs Hc.
  apply find_None_count in Hc. rewrite Hc in Hs.
  unfold insert_user in Hs. rewrite (existsb_find_None _ _ Hc) in Hs.
  destruct (next_rowid _ _) as [i|] eqn:Hi; [|done].
  injection Hs as <-. exists i. split; [|done].
  apply next_rowid_Some in Hi as [_ ->].
  pose proof (largest_rowid_nonneg (u_id <$> user_rows (users d))). lia.
Qed.

(** X12: the seeded account reaches the protected routes.  On a server
    booted over a database without an "admin" account, after any requests,
    a login as admin / admin123 is answered 200, and every listing request
    that carries the session identifier of that login is answered 200 as
    well: the id the seed gave the account is positive, so the gate lets
    it through.  Outside production that identifier is the cookie the
    browser holds after the login.  In production a client that logs in
    without a session cookie is sent none, and its listing requests are
    still answered 401. *)
Theorem seeded_account_passes_the_gate (Hbc : BcryptCorrect)
    salt d st0 tr e cookie (body : gmap string jsvalue) res st' :
  count_users "admin" d = 0%nat ->
  boot salt d = Some st0 ->
  body !! "username" = Some (JStr "admin") ->
  body !! "password" = Some (JStr "admin123") ->
  handle (run st0 tr) e (mkReq POST_login cookie body) = (res, st') ->
  res_status res = 200
  /\ (forall e' R b,
        exists l,
          handle st' e'
            (mkReq (GET_list R)
               (Some (request_sid (run st0 tr) e (mkReq POST_login cookie body))) b)
          = (mkRes 200 (JsonRows l) None, st'))
  /\ (production = false ->
      forall e' R b,
        exists l,
          handle st' e' (mkReq (GET_list R) (cookie_after cookie res) b)
          = (mkRes 200 (JsonRows l) None, st'))
  /\ (production = true -> cookie = None ->
      res_set_cookie res = None
      /\ forall e' R b,
           handle st' e' (mkReq (GET_list R) (cookie_after cookie res) b)
           = (mkRes 401 (Json {[ "error" := JStr "Unauthorized" ]}) None, st')).
Proof.
  intros Hc Hboot Hname Hpw Hh.
  apply boot_db in Hboot.
  destruct (seed_fresh_id _ _ _ Hboot Hc) as (i & Hpos & Husers).
  set (admin := mkUser i "admin" (hashSync "admin123" 10 salt) "admin") in *.
  assert (Hfind : find (fun u => String.eqb (username u) "admin")
                    (user_rows (users (db (run st0 tr)))) = Some admin).
  { rewrite run_users, Husers. simpl.
    apply find_None_count in Hc. by rewrite (find_app_None _ _ admin Hc). }
  pose proof (login_known_user (db (run st0 tr))
    (session_of (run st0 tr) e (mkReq POST_login cookie body))
    body "admin" "admin123" admin Hname Hpw Hfind) as Hl.
  simpl in Hl. rewrite compareSync_hashSync in Hl.
  destruct (handle_login_success _ e cookie body admin Hl) as [c Hh'].
  assert (H200 : res_status res = 200).
  { rewrite Hh in Hh'. by injection Hh' as -> _. }
  split; [exact H200|].
  destruct (login_200_session _ e cookie body _ _ Hh H200)
    as (u & pw & Hsel & _ & _ & Hres & Hst).
  assert (Hu : u = admin).
  { rewrite Hname, select_user_string, Hfind in Hsel. congruence. }
  subst u.
  assert (Hlist : forall e' R b,
            exists l,
              handle st' e'
                (mkReq (GET_list R)
                   (Some (request_sid (run st0 tr) e (mkReq POST_login cookie body))) b)
              = (mkRes 200 (JsonRows l) None, st')).
  { intros e' R b. exists (list_rows (db st') R).
    apply handle_get_authenticated.
    rewrite (session_of_cookie _ e' (GET_list R) _ b
               (mkSession (Some (js_number i)) (Some "admin"))).
    - simpl. apply negb_true_iff, Z.eqb_neq. pose proof (js_number_pos i Hpos). lia.
    - rewrite Hst. simpl. by rewrite lookup_insert_eq. }
  split; [exact Hlist|]. split.
  - intros Hdev e' R b.
    assert (Hcookie : cookie_after cookie res
              = Some (request_sid (run st0 tr) e (mkReq POST_login cookie body))).
    { rewrite Hres. unfold cookie_after, request_sid. simpl. rewrite Hdev.
      destruct (load_session (run st0 tr) e (mkReq POST_login cookie body))
        as [[sid0 s0] n] eqn:Hload. simpl.
      destruct n; [done|]. simpl.
      by apply load_session_old in Hload as [Hck _]. }
    rewrite Hcookie. apply Hlist.
  - intros Hprod ->.
    assert (Hnone : res_set_cookie res = None).
    { rewrite Hres. simpl. by rewrite Hprod. }
    split; [exact Hnone|]. intros e' R b.
    unfold cookie_after. rewrite Hnone.
    by apply handle_get_unauthenticated.
Qed.

End FurtherServerProperties.

(** * Further properties of the web client *)

(** ** The state of [App] *)

Lemma app_step_inspections a ev :
  (forall data, ev <> Fetched (view inspections) data) ->
  inspections_state (app_data (app_step a ev)) = inspections_state (app_data a).
Proof.
  intros Hev. destruct ev as [[?|]|[?|]| |v|v data| | | |]; simpl; try done.
  destruct v as [|[]]; simpl; try done. by destruct (Hev data).
Qed.

(** X13: the inspections held by the component change only when a fetch
    started in the inspections view is answered.  Whatever else happens
    (auth check, login, logout, navigation, fetches of the dashboard and of
    the other views, modal and sidebar), they stay as they were; so after
    mounting, until the inspections view has been fetched, the dashboard
    shows 0 / 0 / 0 whatever the server stores. *)
Theorem dashboard_needs_the_inspections_view evs :
  (forall data, Fetched (view inspections) data ∉ evs) ->
  (forall a, inspections_state (app_data (app_run a evs))
             = inspections_state (app_data a))
  /\ DashboardView (inspections_state (app_data (app_run initial_app evs)))
     = {| pending := 0; completed := 0; urgent := 0 |}.
Proof.
  intros Hno.
  assert (Hkeep : forall a, inspections_state (app_data (app_run a evs))
                            = inspections_state (app_data a)).
  { unfold app_run. induction evs as [|ev evs IH]; intros a; simpl; [done|].
    rewrite IH.
    - apply app_step_inspections. intros data ->. apply (Hno data). by left.
    - intros data Hin. apply (Hno data). by right. }
  split; [exact Hkeep|]. by rewrite Hkeep.
Qed.

(** X14: logout forgets the user and returns to the dashboard but keeps
    the fetched lists.  After the logout is answered the login view is
    shown (once loading is over); after the next ok login and the fetch of
    the dashboard, the shell shows the dashboard with the counters of the
    inspections that were held before the logout. *)
Theorem logout_keeps_the_fetched_lists a :
  let a1 := app_step a LogoutAnswered in
  app_data a1 = app_data a
  /\ (app_loading a = false -> App a1 = LoginScreen)
  /\ (forall u data,
        let a2 := app_run a1 [LoginAnswered (Some u); Fetched dashboard data] in
        (app_loading a = false -> App a2 = Shell dashboard)
        /\ DashboardView (inspections_state (app_data a2))
           = DashboardView (inspections_state (app_data a))).
Proof.
  simpl. split; [done|]. split.
  - unfold App; simpl. by intros ->.
  - intros u data. split; [|done]. unfold App; simpl. by intros ->.
Qed.

Lemma app_run_snoc a evs ev : app_run a (evs ++ [ev]) = app_step (app_run a evs) ev.
Proof. unfold app_run. by rewrite foldl_app. Qed.

(** X15: what [App] shows.  From the initial state the spinner stays until
    an auth check has completed; the shell is shown only when an auth check
    or a login was answered ok; and right after a logout is answered the
    shell is not shown. *)
Theorem shell_needs_an_ok_answer evs :
  ((forall m, AuthChecked m ∉ evs) -> App (app_run initial_app evs) = Spinner)
  /\ (forall v, App (app_run initial_app evs) = Shell v ->
        exists data, AuthChecked (Some data) ∈ evs \/ LoginAnswered (Some data) ∈ evs)
  /\ (forall v, App (app_run initial_app (evs ++ [LogoutAnswered])) <> Shell v).
Proof.
  split; [|split].
  - intros Hno.
    assert (Hl : app_loading (app_run initial_app evs) = true).
    { induction evs as [|ev evs IH] using rev_ind; [done|].
      rewrite app_run_snoc.
      assert (Hl : app_loading (app_run initial_app evs) = true).
      { apply IH. intros m Hin. apply (Hno m). apply elem_of_app. by left. }
      destruct ev as [m|[?|]| |v|v data| | | |]; simpl; try done.
      destruct (Hno m). apply elem_of_app. right. by left. }
    unfold App. by rewrite Hl.
  - assert (Hu : forall u, app_user (app_run initial_app evs) = Some u ->
              exists data, AuthChecked (Some data) ∈ evs
                           \/ LoginAnswered (Some data) ∈ evs).
    { induction evs as [|ev evs IH] using rev_ind; [done|].
      intros u. rewrite app_run_snoc.
      assert (Hweak : (exists data, AuthChecked (Some data) ∈ evs
                                    \/ LoginAnswered (Some data) ∈ evs) ->
                exists data, AuthChecked (Some data) ∈ evs ++ [ev]
                             \/ LoginAnswered (Some data) ∈ evs ++ [ev]).
      { intros [data [Hin|Hin]]; exists data; [left|right]; apply elem_of_app; by left. }
      destruct ev as [[d0|]|[d0|]| |v|v data| | | |]; simpl; intros Hus;
        try (by apply Hweak, (IH u));
        exists d0; [left|right]; apply elem_of_app; right; by left. }
    intros v. unfold App. destruct (app_loading _); [done|].
    destruct (app_user (app_run initial_app evs)) as [u|] eqn:Hus; [|done].
    intros _. by apply (Hu u).
  - intros v. rewrite app_run_snoc. unfold App; simpl.
    by destruct (app_loading _).
Qed.

(** ** Badges and counters *)

Lemma status_is_exclusive s s' (i : gmap string jsvalue) :
  s <> s' -> status_is s i = true -> status_is s' i = false.
Proof.
  intros Hne Hs. apply status_is_spec in Hs.
  destruct (status_is s' i) eqn:Hs'; [|done].
  apply status_is_spec in Hs'. congruence.
Qed.

Lemma badge_cases (i : gmap string jsvalue) :
  inspection_badge i
  = if status_is "urgent" i then "至急"
    else if status_is "completed" i then "完了" else "対応中".
Proof. reflexivity. Qed.

(** X16: the inspection list and the dashboard disagree on statuses outside
    the three known ones.  In any list, the items badged as urgent and as
    completed are as many as the dashboard's urgent and completed counters,
    but the items badged as pending are the dashboard's pending counter
    plus every item whose status is none of 'pending', 'completed',
    'urgent' (or is missing); the three counters add up to the length of the
    list only without such items. *)
Theorem badges_and_counters (l : list (gmap string jsvalue)) :
  let badged b := length (List.filter (fun i => String.eqb (inspection_badge i) b) l) in
  let other := length (List.filter
                         (fun i => negb (status_is "pending" i || status_is "completed" i
                                         || status_is "urgent" i)) l) in
  badged "至急" = urgent (DashboardView l)
  /\ badged "完了" = completed (DashboardView l)
  /\ badged "対応中" = (pending (DashboardView l) + other)%nat
  /\ length l = (pending (DashboardView l) + completed (DashboardView l)
                + urgent (DashboardView l) + other)%nat.
Proof.
  simpl. unfold DashboardView; simpl.
  induction l as [|i l (IH1 & IH2 & IH3 & IH4)]; [done|].
  simpl. rewrite (badge_cases i).
  destruct (status_is "urgent" i) eqn:Hu.
  - rewrite (status_is_exclusive "urgent" "pending" i ltac:(done) Hu).
    rewrite (status_is_exclusive "urgent" "completed" i ltac:(done) Hu).
    simpl. repeat split; lia.
  - destruct (status_is "completed" i) eqn:Hc.
    + rewrite (status_is_exclusive "completed" "pending" i ltac:(done) Hc).
      simpl. repeat split; lia.
    + destruct (status_is "pending" i); simpl; repeat split; lia.
Qed.

(** ** Attendees *)

Lemma split_not_nil sep s : split sep s <> [].
Proof.
  destruct s as [|c s]; simpl; [done|].
  destruct (Ascii.eqb c sep); [done|]. by destruct (split sep s).
Qed.

(** [split] and [join] round-trip.  Splitting a string at a character
    gives one more piece than the string has occurrences of it (so at least
    one piece, also for the empty string), no piece contains the
    character, and joining the pieces with it gives the string back. *)
Theorem split_join_round_trip sep s :
  length (split sep s) = S (count_char sep s)
  /\ Forall (fun piece => contains_char sep piece = false) (split sep s)
  /\ join sep (split sep s) = s.
Proof.
  induction s as [|c s (IHlen & IHno & IHjoin)]; simpl.
  - repeat split. by repeat constructor.
  - destruct (Ascii.eqb_spec c sep) as [->|Hne].
    + simpl. split; [by rewrite IHlen|]. split; [by constructor|].
      pose proof (split_not_nil sep s).
      destruct (split sep s) as [|h t] eqn:Hsp; [done|].
      simpl in *. by rewrite IHjoin.
    + pose proof (split_not_nil sep s).
      destruct (split sep s) as [|h t] eqn:Hsp; [done|].
      simpl in IHlen. split; [done|].
      apply Forall_cons in IHno as [Hh Ht]. split.
      * constructor; [|done]. simpl. rewrite Hh.
        by destruct (Ascii.eqb_spec c sep).
      * destruct t as [|h' t]; simpl in *; by rewrite <- IHjoin.
Qed.

(** X17: the attendee circles of a minute.  With [n] commas in the
    attendees text there are [n + 1] names; the list shows [min 3 (n + 1)]
    circles, never none, and the extra "+k" circle appears exactly when
    there are more than three names, with [k = n + 1 - 3]; circles and [k]
    together account for every name. *)
Theorem attendee_circles_count attendees :
  let n := S (count_char comma attendees) in
  length (attendee_circles attendees) = Nat.min 3 n
  /\ attendee_circles attendees <> []
  /\ attendee_overflow attendees = (if (3 <? n)%nat then Some (n - 3)%nat else None)
  /\ (length (attendee_circles attendees)
      + default 0%nat (attendee_overflow attendees) = n)%nat.
Proof.
  intros n. unfold attendee_circles, attendee_overflow.
  assert (Hlen : length (split comma attendees) = n).
  { unfold n. clear n. induction attendees as [|c s IH]; simpl; [done|].
    destruct (Ascii.eqb c comma); simpl; [by rewrite IH|].
    pose proof (split_not_nil comma s).
    by destruct (split comma s) as [|h t] eqn:Hsp. }
  rewrite length_take, Hlen. split; [done|]. split.
  - intros Hnil. apply (f_equal length) in Hnil. rewrite length_take, Hlen in Hnil.
    unfold n in Hnil. simpl in Hnil. lia.
  - split; [done|]. clearbody n.
    destruct (Nat.ltb_spec 3 n); cbv [default from_option id]; lia.
Qed.

(** * The client against the server *)

Section ClientServerProperties.
Context {conv : SqliteConv} {bc : Bcrypt} {dep : Deployment} {ts : TimestampText}.

(** ** The create form *)



(** A create answered 200 appended one row whose columns are the bound
    body fields. *)
Lemma created_row st e R cookie body res st' :
  handle st e (mkReq (POST_create R) cookie body) = (res, st') ->
  res_status res = 200 ->
  exists rw,
    rows (get_table (db st') R) = rows (get_table (db st) R) ++ [rw]
    /\ bind_columns (columns R) body = Some (row_cols rw).
Proof.
  intros Hh H200.
  apply handle_post_200 in Hh as (uid & i & t & _ & _ & Hi & _ & ->); [|done].
  apply insert_row_Some in Hi as (cols & Hcols & _ & -> & ->).
  eexists. simpl. rewrite set_get_table. simpl. split; [reflexivity|]. done.
Qed.


(** ** The dashboard over a listing *)

Lemma row_json_lookup rw k :
  k <> "id" -> k <> "user_id" -> k <> "created_at" ->
  row_json rw !! k = js_of_sql <$> row_cols rw !! k.
Proof.
  intros H1 H2 H3. unfold row_json.
  rewrite !lookup_insert_ne by done. apply lookup_fmap.
Qed.

Lemma status_is_row_json s rw :
  status_is s (row_json rw)
  = bool_decide (row_cols rw !! "status" = Some (SqlText s)).
Proof.
  unfold status_is. rewrite row_json_lookup by done.
  destruct (row_cols rw !! "status") as [[|n|n|s']|]; simpl;
    try case_bool_decide as Hd; try done.
  - injection Hd as ->. apply String.eqb_refl.
  - apply String.eqb_neq. congruence.
Qed.

Lemma filter_length_perm {A} (f : A -> bool) l l' :
  l ≡ₚ l' -> length (List.filter f l) = length (List.filter f l').
Proof.
  induction 1 as [|x l l' _ IH|x y l|l l' l'' _ IH1 _ IH2]; simpl.
  - done.
  - destruct (f x); simpl; by rewrite IH.
  - by destruct (f x), (f y).
  - by rewrite IH1.
Qed.

Lemma count_status_rows s (l : list row) :
  count_status s (row_json <$> l) = length (rows_with_status s l).
Proof.
  rewrite <- filter_status_length. unfold rows_with_status.
  induction l as [|rw l IH]; [done|].
  rewrite fmap_cons. simpl. rewrite status_is_row_json.
  destruct (bool_decide _); simpl; [f_equal|]; exact IH.
Qed.

(** X19: the dashboard over a listing counts the stored statuses.  For
    every listing the query allows, in whatever order it arranges the rows,
    the three counters computed from its JSON rows are the numbers of rows
    of the table whose [status] column holds the text 'pending',
    'completed' and 'urgent'. *)
Theorem dashboard_counts_the_stored_statuses t l :
  is_listing t l ->
  DashboardView (row_json <$> l)
  = {| pending := length (rows_with_status "pending" (rows t));
       completed := length (rows_with_status "completed" (rows t));
       urgent := length (rows_with_status "urgent" (rows t)) |}.
Proof.
  intros [Hperm _]. unfold DashboardView.
  rewrite !filter_status_length, !count_status_rows.
  unfold rows_with_status. by rewrite !(filter_length_perm _ _ _ Hperm).
Qed.

(** X20: creating an inspection moves one counter by one.  After a create
    on inspections answered 200 whose [status] field is the string [s0],
    the count of status [s] over any listing of the table afterwards is the
    count over any listing before, plus one when [s] is [s0]. *)
Theorem create_moves_one_counter st e cookie (body : gmap string jsvalue) res st' s0 :
  handle st e (mkReq (POST_create inspections) cookie body) = (res, st') ->
  res_status res = 200 ->
  body !! "status" = Some (JStr s0) ->
  forall l l' s,
    is_listing (get_table (db st) inspections) l ->
    is_listing (get_table (db st') inspections) l' ->
    count_status s (row_json <$> l')
    = (count_status s (row_json <$> l) + (if decide (s = s0) then 1 else 0))%nat.
Proof.
  intros Hh H200 Hstatus l l' s [Hperm _] [Hperm' _].
  destruct (created_row _ _ _ _ _ _ _ Hh H200) as (rw & Hrows & Hcols).
  rewrite !count_status_rows. unfold rows_with_status.
  rewrite (filter_length_perm _ _ _ Hperm), (filter_length_perm _ _ _ Hperm'), Hrows.
  rewrite filter_length_app. f_equal. simpl.
  destruct (bind_columns_lookup _ _ _ "status" TEXT (columns_NoDup inspections) Hcols)
    as (v & Hv & Hl).
  { simpl. do 4 right. left. }
  rewrite Hstatus in Hv. injection Hv as <-. rewrite Hl. simpl.
  destruct (decide (s = s0)) as [->|Hne].
  - by rewrite bool_decide_eq_true_2.
  - rewrite bool_decide_eq_false_2; [done|]. by intros [= ->].
Qed.

(** ** Rows the list views cannot render *)



End ClientServerProperties.

(** * Further concrete runs *)

Section FurtherRuns.
#[local] Existing Instance decimal_conv.
#[local] Existing Instance tagged_bcrypt.
#[local] Existing Instance development.
#[local] Existing Instance seconds_text.

Lemma first_login :
  handle booted (mkEnv 90 "sid-1") login_request
  = (mkRes 200 (Json {[ "id" := JNum 1; "username" := JStr "admin";
                        "role" := JStr "admin" ]}) (Some "sid-1"), logged_in).
Proof. vm_compute. reflexivity. Qed.


Lemma get_without_session_is_rejected_witness :
  truthy (sess_userId (session_of logged_in (mkEnv 100 "sid-2")
                         (mkReq (GET_list inspections) None ∅))) = false
  /\ handle logged_in (mkEnv 100 "sid-2") (mkReq (GET_list inspections) None ∅)
     = (mkRes 401 (Json {[ "error" := JStr "Unauthorized" ]}) None, logged_in).
Proof.
  split; [reflexivity|].
  exact (get_without_session_is_rejected logged_in (mkEnv 100 "sid-2")
           inspections None ∅ eq_refl).
Defined.

Lemma listing_returns_every_row_witness :
  truthy (sess_userId (session_of two_inspections (mkEnv 101 "sid-4") list_inspections))
  = true
  /\ exists l,
       handle two_inspections (mkEnv 101 "sid-4") list_inspections
       = (mkRes 200 (JsonRows l) None, two_inspections)
       /\ length l = 2%nat.
Proof.
  split; [reflexivity|].
  destruct (listing_returns_every_row two_inspections (mkEnv 101 "sid-4") inspections
              (Some "sid-1") ∅ eq_refl) as (l & Hh & _ & Hlen & _).
  exists l. split; [exact Hh | exact Hlen].
Defined.

Lemma login_establishes_the_session_witness :
  res_status (handle booted (mkEnv 90 "sid-1") login_request).1 = 200
  /\ exists u,
       u ∈ user_rows (users (db booted))
       /\ username u = "admin"
       /\ compareSync "admin123" (password u) = true
       /\ session_of logged_in (mkEnv 95 "sid-6") (mkReq GET_me (Some "sid-1") ∅)
          = mkSession (Some (js_number (u_id u))) (Some (username u))
       /\ cookie_after None (handle booted (mkEnv 90 "sid-1") login_request).1
          = Some "sid-1".
Proof.
  split; [reflexivity|].
  destruct (login_establishes_the_session booted (mkEnv 90 "sid-1") None
              admin_credentials _ _ first_login eq_refl)
    as (u & pw & _ & Hin & Hname & Hpw & Hc & _ & _ & _ & Hs & _ & Hcookie & _).
  exists u. split; [exact Hin|]. split; [exact (Hname "admin" eq_refl)|].
  injection Hpw as <-.
  split; [exact Hc|]. split; [exact (Hs (mkEnv 95 "sid-6") GET_me ∅)|].
  exact (Hcookie (or_intror eq_refl)).
Defined.

Lemma sessions_belong_to_users_witness :
  sessions (run booted [(mkEnv 90 "sid-1", login_request)]) !! "sid-1"
  = Some (mkSession (Some 1) (Some "admin"))
  /\ exists u,
       u ∈ user_rows (users (db (run booted [(mkEnv 90 "sid-1", login_request)])))
       /\ Some 1 = Some (js_number (u_id u)).
Proof.
  split; [reflexivity|].
  destruct (sessions_belong_to_users "c2FsdA" fresh_db booted
              [(mkEnv 90 "sid-1", login_request)] boot_fresh "sid-1"
              (mkSession (Some 1) (Some "admin")) eq_refl) as (u & Hin & Hid & _).
  exists u. split; [exact Hin | exact Hid].
Defined.

Lemma created_rows_have_an_existing_creator_witness :
  exists u rw,
    u ∈ user_rows (users (db one_inspection))
    /\ last (rows (get_table (db one_inspection) inspections)) = Some rw
    /\ js_of_sql (row_user_id rw) = JNum (js_number (u_id u)).
Proof.
  destruct (created_rows_have_an_existing_creator "c2FsdA" fresh_db booted
              [(mkEnv 90 "sid-1", login_request)] (mkEnv 100 "sid-2") inspections
              (Some "sid-1") inspection_fields _ _ boot_fresh first_create eq_refl)
    as (u & rw & Hin & _ & Hlast & Hid).
  exists u, rw. split; [exact Hin|]. split; [exact Hlast | exact Hid].
Defined.

Lemma rows_apart_increase :
  StronglySorted (fun x y => row_created_at x < row_created_at y)
    (rows (get_table (db two_inspections_apart) inspections)).
Proof. vm_compute. repeat constructor. Qed.

Lemma listing_is_newest_first_witness :
  row_created_at <$> rows (get_table (db two_inspections_apart) inspections) = [100; 101]
  /\ handle two_inspections_apart (mkEnv 102 "sid-4") list_inspections
     = (mkRes 200
          (JsonRows (reverse (rows (get_table (db two_inspections_apart) inspections))))
          None, two_inspections_apart).
Proof.
  split; [reflexivity|].
  exact (proj2 (listing_is_newest_first two_inspections_apart (mkEnv 102 "sid-4")
                  inspections (Some "sid-1") ∅ rows_apart_increase) eq_refl).
Defined.

Lemma seeded_account_passes_the_gate_witness :
  count_users "admin" fresh_db = 0%nat
  /\ exists l,
       handle logged_in (mkEnv 95 "sid-6") (mkReq (GET_list minutes) (Some "sid-1") ∅)
       = (mkRes 200 (JsonRows l) None, logged_in).
Proof.
  split; [reflexivity|].
  exact (proj1 (proj2 (seeded_account_passes_the_gate tagged_bcrypt_correct "c2FsdA"
                         fresh_db booted [] (mkEnv 90 "sid-1") None admin_credentials _ _
                         eq_refl boot_fresh eq_refl eq_refl first_login))
           (mkEnv 95 "sid-6") minutes ∅).
Defined.

Lemma dashboard_needs_the_inspections_view_witness :
  DashboardView
    (inspections_state
       (app_data (app_run initial_app
                    [AuthChecked (Some {[ "id" := JNum 1; "username" := JStr "admin" ]});
                     Fetched dashboard [ {[ "status" := JStr "pending" ]} ]])))
  = {| pending := 0; completed := 0; urgent := 0 |}.
Proof.
  apply (dashboard_needs_the_inspections_view
           [AuthChecked (Some {[ "id" := JNum 1; "username" := JStr "admin" ]});
            Fetched dashboard [ {[ "status" := JStr "pending" ]} ]]).
  intros data Hin.
  apply elem_of_cons in Hin as [Heq|Hin]; [discriminate Heq|].
  apply elem_of_cons in Hin as [Heq|Hin]; [discriminate Heq|].
  by apply elem_of_nil in Hin.
Defined.


Lemma dashboard_counts_the_stored_statuses_witness :
  is_listing (get_table (db two_inspections) inspections)
    (list_rows (db two_inspections) inspections)
  /\ DashboardView (row_json <$> list_rows (db two_inspections) inspections)
     = {| pending := 2; completed := 0; urgent := 0 |}.
Proof.
  split; [apply list_rows_is_listing|].
  rewrite (dashboard_counts_the_stored_statuses _ _
             (list_rows_is_listing (db two_inspections) inspections)).
  reflexivity.
Defined.

Lemma create_moves_one_counter_witness :
  count_status "pending" (row_json <$> list_rows (db two_inspections) inspections)
  = (count_status "pending" (row_json <$> list_rows (db one_inspection) inspections)
     + 1)%nat.
Proof.
  exact (create_moves_one_counter one_inspection (mkEnv 100 "sid-3") (Some "sid-1")
           inspection_fields _ _ "pending" second_create eq_refl eq_refl
           _ _ "pending" (list_rows_is_listing _ _) (list_rows_is_listing _ _)).
Defined.


End FurtherRuns.

(** * A run in production *)

Section ProductionRuns.
#[local] Existing Instance decimal_conv.
#[local] Existing Instance tagged_bcrypt.
#[local] Existing Instance production_mode.

(** With [NODE_ENV=production] the login of the seeded account is answered
    200 and its session is stored, but no cookie is set; the client, left
    without a cookie, is then answered 401, while a request that did carry
    the identifier would be served as the admin. *)
Remark production_login_sets_no_cookie :
  (handle booted (mkEnv 90 "sid-1") login_request).1
  = mkRes 200 (Json {[ "id" := JNum 1; "username" := JStr "admin";
                       "role" := JStr "admin" ]}) None
  /\ sessions (handle booted (mkEnv 90 "sid-1") login_request).2 !! "sid-1"
     = Some (mkSession (Some 1) (Some "admin"))
  /\ (handle (handle booted (mkEnv 90 "sid-1") login_request).2 (mkEnv 95 "sid-2")
        (mkReq GET_me None ∅)).1
     = mkRes 401 (Json {[ "error" := JStr "Not logged in" ]}) None
  /\ (handle (handle booted (mkEnv 90 "sid-1") login_request).2 (mkEnv 95 "sid-2")
        (mkReq GET_me (Some "sid-1") ∅)).1
     = mkRes 200 (Json {[ "id" := JNum 1; "username" := JStr "admin" ]}) None.
Proof. repeat split; vm_compute; reflexivity. Qed.

End ProductionRuns.
